(** * The retrying agent invoker of the Text-to-SQL notebook

    A shallow embedding of [SQLHandler] and [invoke_agent] from
    "Lab 3/3.2 Text to SQL" and the properties of its bounded retry loop.
    Later sections embed the table filter of the same notebook, the request
    builders of the retrieval and guardrails notebooks, the citation printer
    and the cell that starts and watches an ingestion job.

    Modelling conventions.
    - The agent is an external, stateful callable: its behaviour is a script
      giving, for the prompt and the number of earlier calls, the callback
      actions it reports and how the call ends (a response dict or a raised
      exception).
    - [random.random()] is a stream of samples, consumed one per draw.
    - Python numbers used for delays are taken as exact rationals ([Q]);
      rounding and overflow of binary floating point are outside the model.
    - [time.sleep] rejects a negative duration with [ValueError], as CPython
      does; [except Exception] catches only instances of [Exception].
    - Console output ([print]) carries no data flow and is left out. *)

From Stdlib Require Import ZArith QArith Qabs Qminmax Lia Lqa DecimalString.
From stdpp Require Import base option list strings gmap.

Local Open Scope string_scope.

(** ** Python values *)

(** An exception object, as far as the code can observe it: its class name,
    whether the class derives from [Exception] (what [except Exception]
    tests) and its description [str(e)]. *)
Record exn := mk_exn {
  exn_class : string;
  is_Exception : bool;
  exn_str : string
}.

(** [str(x)] for a variable that holds [None] or an exception. *)
Definition py_str (x : option exn) : string :=
  match x with
  | None => "None"
  | Some e => exn_str e
  end.

(** [str(n)] for a Python int, as an f-string field prints it. *)
Definition str_int (n : Z) : string :=
  NilZero.string_of_int (Z.to_int n).

(** [needle in haystack] on Python strings: substring search. *)
Fixpoint contains (needle haystack : string) : bool :=
  String.prefix needle haystack ||
  match haystack with
  | EmptyString => false
  | String _ rest => contains needle rest
  end.

(** [KeyError] raised by [response['output']] when the key is missing. *)
Definition KeyError_output : exn :=
  mk_exn "KeyError" true "'output'".

(** [ValueError] raised by [time.sleep] on a negative argument. *)
Definition ValueError_sleep : exn :=
  mk_exn "ValueError" true "sleep length must be non-negative".

(** ** The callback handler *)

(** [AgentAction]: the fields [on_agent_action] reads. *)
Record action := mk_action {
  tool : string;
  tool_input : string
}.

Record SQLHandler := mk_handler {
  sql_query : option string
}.

(** [SQLHandler.__init__] *)
Definition SQLHandler_init : SQLHandler :=
  {| sql_query := None |}.

(** [SQLHandler.on_agent_action] *)
Definition on_agent_action (self : SQLHandler) (a : action) : SQLHandler :=
  if String.eqb (tool a) "sql_db_query"
  then {| sql_query := Some (tool_input a) |}
  else self.

(** ** The external agent *)

(** How a call of [agent.invoke] ends. *)
Inductive ending :=
| Return (response : gmap string string)
| Raise (e : exn).

(** One call of [agent.invoke]: the actions reported to the callbacks, in
    order, then the ending. *)
Record outcome := mk_outcome {
  actions : list action;
  ending_of : ending
}.

(** A prompt value: the formatted chat messages, as (role, text) pairs. *)
Definition prompt := list (string * string).

Definition Agent := prompt -> nat -> outcome.

Definition system_message : string :=
"
    You are an expert in Amazon Athena.
    You have access to the live database to query.
    To answer this question, 
        you will first need to get the schema of the relevant tables to see what columns are available.
    Then query the relevant tables in the database to come up with Final Answer.
    Do not assume any values for the data.
    Use [sql_db_list_tables] to get a list of tables in the database.
    Use [sql_db_schema] to the schema for these tables.
    Use [sql_db_query_checker] to validate the SQL query.
    Execute the query using [sql_db_query] tool and observe the output.
    Always provide the explanation and assumptions that you have made to come up with the output.
    For forecasting questions:
    - There won't be any data available for the future dates. So, identify historical data trends.
    - Use appropriate methods to forecast future values based on historical data.
    - Clearly explain the forecasting methodology and results.
    ".

(** [prompt_template.invoke(question)]: the template has the single
    variable [context], which receives the question. *)
Definition prompt_template_invoke (question : string) : prompt :=
  [("system", system_message); ("human", question)].

(** ** Effects *)

Inductive event :=
| EInvoke (call : nat)      (* [agent.invoke] was called; [call] earlier calls *)
| ESleep (seconds : Q).     (* [time.sleep(seconds)] completed *)

Record world := mk_world {
  handler : SQLHandler;     (* the one [SQLHandler] object of the call *)
  calls : nat;              (* calls of [agent.invoke] so far *)
  draws : nat;              (* samples taken from the generator so far *)
  trace : list event        (* what happened, oldest first *)
}.

Definition world_init : world :=
  {| handler := SQLHandler_init; calls := 0; draws := 0; trace := [] |}.

(** What the caller of [invoke_agent] gets: the returned pair, or an
    exception that propagates out of the function. *)
Inductive result :=
| Returned (sqlquery : option string) (output : string)
| Escaped (e : exn).

(** [random.uniform(a, b)] is [a + (b - a) * random()]. *)
Definition random_uniform (rng : nat -> Q) (a b : Q) (w : world) : Q * world :=
  ((a + (b - a) * rng (draws w))%Q,
   {| handler := handler w; calls := calls w;
      draws := S (draws w); trace := trace w |}).

(** [time.sleep(seconds)]: a negative duration raises [ValueError]. CPython
    also raises [OverflowError] for a duration beyond what a 64-bit count of
    nanoseconds holds, about 9.22e9 seconds; that is left out here, and
    [delays_in_range] below gives the configurations where it cannot
    happen. *)
Definition time_sleep (seconds : Q) (w : world) : exn + world :=
  if Qle_bool 0 seconds
  then inr {| handler := handler w; calls := calls w; draws := draws w;
              trace := trace w ++ [ESleep seconds] |}
  else inl ValueError_sleep.

(** [agent.invoke({"input": prompt}, {"callbacks": [handler]})]: the agent
    reports its actions to the handler, then returns or raises. *)
Definition agent_invoke (agent : Agent) (p : prompt) (w : world)
  : (exn + gmap string string) * world :=
  let o := agent p (calls w) in
  (match ending_of o with
   | Return response => inr response
   | Raise e => inl e
   end,
   {| handler := fold_left on_agent_action (actions o) (handler w);
      calls := S (calls w);
      draws := draws w;
      trace := trace w ++ [EInvoke (calls w)] |}).

(** [response['output']] *)
Definition getitem_output (response : gmap string string) : exn + string :=
  match response !! "output" with
  | Some v => inr v
  | None => inl KeyError_output
  end.

(** ** invoke_agent *)

Definition throttling_message : string :=
  "Unable to get a response from the agent due to service throttling. The service is currently experiencing high demand. Please try again in a few minutes or reduce request frequency.".

(** The test written twice in the source, on [str(e)] in the handler and on
    [str(last_exception)] after the loop. *)
Definition is_throttling_str (s : string) : bool :=
  contains "ThrottlingException" s || contains "Too many requests" s.

Section InvokeAgent.

Variable rng : nat -> Q.
Variable agent : Agent.
Variable question : string.
Variable max_retries : Z.
Variables base_delay max_delay : Q.

(** The body of the [try]: the value of [(sqlquery, output)] or the
    exception raised. *)
Definition try_block (p : prompt) (w : world)
  : (exn + (option string * string)) * world :=
  let '(r, w1) := agent_invoke agent p w in
  match r with
  | inl e => (inl e, w1)
  | inr response =>
      match getitem_output response with
      | inl e => (inl e, w1)
      | inr output =>
          let sqlquery := sql_query (handler w1) in
          (inr (sqlquery, output), w1)
      end
  end.

(** The two branches computing [delay] in the handler, in exact arithmetic:
    the rounding of floats is left out, and so is the [OverflowError] that
    CPython raises when an int beyond the range of a float meets the float
    [jitter]; [delays_in_range] below gives the configurations where that
    cannot happen. *)
Definition backoff_delay (attempt : nat) (e : exn) (w : world) : Q * world :=
  let is_throttling := is_throttling_str (exn_str e) in
  if is_throttling then
    let '(jitter, w1) := random_uniform rng 0 2 w in
    (Qmin (base_delay * inject_Z (4 ^ (Z.of_nat attempt - 1)) + jitter)
          max_delay, w1)
  else
    let '(jitter, w1) := random_uniform rng 0 1 w in
    (Qmin (base_delay * inject_Z (2 ^ (Z.of_nat attempt - 1)) + jitter)
          max_delay, w1).

(** The code after the loop. *)
Definition error_message (last_exception : option exn) : string :=
  if is_throttling_str (py_str last_exception)
  then throttling_message
  else "Unable to get a response from the agent after "
       ++ str_int max_retries ++ " attempts. Error: "
       ++ py_str last_exception.

Definition after_loop (last_exception : option exn) : result :=
  Returned None (error_message last_exception).

(** The [while attempt <= max_retries] loop. Each iteration that goes round
    again has raised [attempt] by one, so [fuel] bounds the iterations;
    [None] means the fuel ran out. *)
Fixpoint while_loop (fuel : nat) (p : prompt) (attempt : nat)
    (last_exception : option exn) (w : world) : option (result * world) :=
  if (Z.of_nat attempt <=? max_retries)%Z then
    match fuel with
    | O => None
    | S fuel' =>
        match try_block p w with
        | (inr (sqlquery, output), w1) =>
            Some (Returned sqlquery output, w1)
        | (inl e, w1) =>
            if is_Exception e then
              let last_exception := Some e in
              let attempt := S attempt in
              if (Z.of_nat attempt >? max_retries)%Z then
                Some (after_loop last_exception, w1)
              else
                let '(delay, w2) := backoff_delay attempt e w1 in
                match time_sleep delay w2 with
                | inr w3 => while_loop fuel' p attempt last_exception w3
                | inl err => Some (Escaped err, w2)
                end
            else Some (Escaped e, w1)
        end
    end
  else Some (after_loop last_exception, w).

Definition invoke_agent : option (result * world) :=
  let w := world_init in                        (* handler = SQLHandler() *)
  let p := prompt_template_invoke question in
  while_loop (Z.to_nat (max_retries + 1)) p 0 None w.

End InvokeAgent.

(** ** A description of every run

    The definitions below say, without a loop, what a call of [invoke_agent]
    does, as a function of the agent's script and of the number of calls of
    the agent the run made. [run_spec] is proved of every run. *)

(** What the [try] body yields for one outcome of the agent: the value of
    [output], or the exception raised there. *)
Definition attempt_result (o : outcome) : exn + string :=
  match ending_of o with
  | Raise e => inl e
  | Return response => getitem_output response
  end.

(** The value [random.uniform(0, b)] computes from the sample [u]. *)
Definition jitter_of (b u : Q) : Q := (0 + (b - 0) * u)%Q.

(** The delay after the fault [e] of attempt number [attempt], with the
    sample [u], in the same exact arithmetic as [backoff_delay]. *)
Definition delay_value (base_delay max_delay : Q) (attempt : nat) (e : exn)
    (u : Q) : Q :=
  if is_throttling_str (exn_str e)
  then Qmin (base_delay * inject_Z (4 ^ (Z.of_nat attempt - 1)) + jitter_of 2 u)
            max_delay
  else Qmin (base_delay * inject_Z (2 ^ (Z.of_nat attempt - 1)) + jitter_of 1 u)
            max_delay.

Section RunSpec.

Variable rng : nat -> Q.
Variable agent : Agent.
Variable question : string.
Variable max_retries : Z.
Variables base_delay max_delay : Q.

Local Abbreviation p := (prompt_template_invoke question).

(** The actions reported during the first [n] calls of the agent. *)
Definition all_actions (n : nat) : list action :=
  concat (map (fun i => actions (agent p i)) (seq 0 n)).

(** The handler after the first [n] calls of the agent. *)
Definition handler_after (n : nat) : SQLHandler :=
  fold_left on_agent_action (all_actions n) SQLHandler_init.

(** The delay computed after call [i] (attempt [i + 1]), if it faulted. *)
Definition sleep_of (i : nat) : Q :=
  match attempt_result (agent p i) with
  | inl e => delay_value base_delay max_delay (S i) e (rng i)
  | inr _ => 0%Q
  end.

(** [n] rounds of a call followed by a sleep. *)
Definition trace_rounds (n : nat) : list event :=
  flat_map (fun i => [EInvoke i; ESleep (sleep_of i)]) (seq 0 n).

(** Call [i] raised an [Exception], the retry limit was not reached and
    the sleep was accepted: the loop went round again. *)
Definition retried (i : nat) : Prop :=
  exists e, attempt_result (agent p i) = inl e /\
            is_Exception e = true /\
            (Z.of_nat (S i) <= max_retries)%Z /\
            Qle_bool 0 (delay_value base_delay max_delay (S i) e (rng i)) = true.

(** How the last call of the run decides the result. *)
Definition last_call_result (j : nat) (w : world) (r : result) : Prop :=
  match attempt_result (agent p j) with
  | inr output => r = Returned (sql_query (handler w)) output
  | inl e =>
      if is_Exception e then
        if (Z.of_nat (S j) >? max_retries)%Z
        then r = after_loop max_retries (Some e)
        else Qle_bool 0 (delay_value base_delay max_delay (S j) e (rng j)) = false
             /\ r = Escaped ValueError_sleep
      else r = Escaped e
  end.

Record run_spec (r : result) (w : world) : Prop := {
  rs_handler : handler w = handler_after (calls w);
  rs_trace :
    trace w = match calls w with
              | O => []
              | S j => (trace_rounds j ++ [EInvoke j])%list
              end;
  rs_retried : forall i, S i < calls w -> retried i;
  rs_result :
    match calls w with
    | O => (max_retries < 0)%Z /\ r = after_loop max_retries None
    | S j => (Z.of_nat j <= max_retries)%Z /\ last_call_result j w r
    end
}.

End RunSpec.

(** ** The loop invariant *)

Section LoopInvariant.

Variable rng : nat -> Q.
Variable agent : Agent.
Variable question : string.
Variable max_retries : Z.
Variables base_delay max_delay : Q.

(** The state at the loop head when [attempt = a]. *)
Record loop_inv (a : nat) (last_exception : option exn) (w : world) : Prop := {
  li_calls : calls w = a;
  li_draws : draws w = a;
  li_handler : handler w = handler_after agent question a;
  li_trace : trace w = trace_rounds rng agent question base_delay max_delay a;
  li_retried : forall i, i < a ->
               retried rng agent question max_retries base_delay max_delay i;
  li_first : a = 0 -> last_exception = None;
  li_bound : 0 < a -> (Z.of_nat a <= max_retries)%Z
}.

End LoopInvariant.

(** ** Observations on a run *)

(** Number of calls of [agent.invoke] in a trace. *)
Fixpoint count_invokes (tr : list event) : nat :=
  match tr with
  | [] => 0
  | EInvoke _ :: tr' => S (count_invokes tr')
  | ESleep _ :: tr' => count_invokes tr'
  end.

(** The durations slept, in order. *)
Fixpoint sleeps (tr : list event) : list Q :=
  match tr with
  | [] => []
  | EInvoke _ :: tr' => sleeps tr'
  | ESleep d :: tr' => d :: sleeps tr'
  end.

(** An event without its duration. *)
Definition event_kind (ev : event) : option nat :=
  match ev with
  | EInvoke i => Some i
  | ESleep _ => None
  end.

(** [needle] occurs in [haystack]. *)
Definition occurs_in (needle haystack : string) : Prop :=
  exists before after, haystack = before ++ needle ++ after.

(** What [on_agent_action] stores for an action, if anything. *)
Definition captured (a : action) : option string :=
  if String.eqb (tool a) "sql_db_query" then Some (tool_input a) else None.

(** The last query among a list of actions. *)
Definition most_recent_sql (acts : list action) : option string :=
  last (omap captured acts).

(** ** Sample inputs *)

Definition generic_fault : exn := mk_exn "RuntimeError" true "boom".

Definition throttling_fault : exn :=
  mk_exn "ClientError" true
    "An error occurred (ThrottlingException) when calling the InvokeModel operation".


Definition select_action : action := mk_action "sql_db_query" "SELECT 1".

Definition answer (text : string) : ending := Return {[ "output" := text ]}.

(** An agent that follows a list of outcomes, then repeats [otherwise]. *)
Definition scripted (script : list outcome) (otherwise : outcome) : Agent :=
  fun _ i => nth i script otherwise.

Definition always_failing : Agent :=
  scripted [] (mk_outcome [] (Raise generic_fault)).

Definition always_throttled : Agent :=
  scripted [] (mk_outcome [] (Raise throttling_fault)).


(** Fails once, after reporting a query; then answers without one. *)
Definition fail_then_answer : Agent :=
  scripted [mk_outcome [select_action] (Raise generic_fault)]
           (mk_outcome [] (answer "42")).

(** Throttled once, then answers with a query. *)
Definition throttled_then_answer : Agent :=
  scripted [mk_outcome [] (Raise throttling_fault)]
           (mk_outcome [select_action] (answer "42")).

Definition half : nat -> Q := fun _ => (1 # 2)%Q.
Definition quarter : nat -> Q := fun _ => (1 # 4)%Q.
Definition three_quarters : nat -> Q := fun _ => (3 # 4)%Q.

(** ** Statements about a call *)


(** Every exception the agent raises is an instance of [Exception]. *)
Definition raises_only_Exception (agent : Agent) (question : string) : Prop :=
  forall i e,
    ending_of (agent (prompt_template_invoke question) i) = Raise e ->
    is_Exception e = true.

(** Attempt [i + 1] ends in an [Exception]: raised by the agent, or by
    reading an output the response lacks. *)
Definition attempt_fails (agent : Agent) (question : string) (i : nat) : Prop :=
  exists e,
    attempt_result (agent (prompt_template_invoke question) i) = inl e /\
    is_Exception e = true.

(** Attempt [i + 1] ends with the response output [output]. *)
Definition attempt_succeeds (agent : Agent) (question : string) (i : nat)
    (output : string) : Prop :=
  attempt_result (agent (prompt_template_invoke question) i) = inr output.


(** The retries are used up: the failure pair comes back after
    [max_retries + 1] calls of the agent and [max_retries] sleeps. *)
Definition exhausts_retries (rng : nat -> Q) (agent : Agent) (question : string)
    (max_retries : Z) (base_delay max_delay : Q) : Prop :=
  exists w message,
    invoke_agent rng agent question max_retries base_delay max_delay =
      Some (Returned None message, w) /\
    Z.of_nat (count_invokes (trace w)) = (max_retries + 1)%Z /\
    Z.of_nat (length (sleeps (trace w))) = max_retries.

(** The call succeeds at attempt [k]: [k] calls of the agent, [k - 1]
    sleeps, the [k]-th call is the last event, and the pair returned is the
    handler's query and the output of that call. *)
Definition succeeds_at (rng : nat -> Q) (agent : Agent) (question : string)
    (max_retries : Z) (base_delay max_delay : Q) (k : nat) (output : string)
    : Prop :=
  exists w,
    invoke_agent rng agent question max_retries base_delay max_delay =
      Some (Returned (sql_query (handler w)) output, w) /\
    handler w = handler_after agent question k /\
    calls w = k /\
    count_invokes (trace w) = k /\
    length (sleeps (trace w)) = k - 1 /\
    last (trace w) = Some (EInvoke (k - 1)).







(** Two agents whose attempts fail at the same places. *)
Definition same_pattern (agent1 agent2 : Agent) (question : string) : Prop :=
  forall i,
    match attempt_result (agent1 (prompt_template_invoke question) i),
          attempt_result (agent2 (prompt_template_invoke question) i) with
    | inl _, inl _ => True
    | inr _, inr _ => True
    | _, _ => False
    end.

(** In a run, a fault on an attempt below the retry limit is followed by
    another attempt. *)
Definition fault_is_retried (rng : nat -> Q) (agent : Agent) (question : string)
    (max_retries : Z) (base_delay max_delay : Q) : Prop :=
  forall r w a,
    invoke_agent rng agent question max_retries base_delay max_delay = Some (r, w) ->
    1 <= a -> (Z.of_nat a <= max_retries)%Z ->
    a <= count_invokes (trace w) ->
    attempt_fails agent question (a - 1) ->
    a < count_invokes (trace w).

(** ** The range CPython computes and sleeps

    This development computes delays with exact numbers and lets
    [time_sleep] accept any duration that is not negative. CPython does
    more: converting an int beyond the range of a float raises
    [OverflowError] (in [base_delay * 4 ** (attempt - 1) + jitter]), and so
    does [time.sleep] for a duration beyond what a 64-bit count of
    nanoseconds holds, about 9.22e9 seconds. [delays_in_range] confines a
    configuration to where neither can happen at any attempt up to
    [max_retries]; the statements about what a call does when its sleeps are
    accepted assume it. *)

(** A duration [time.sleep] converts without overflow, in seconds. *)
Definition sleep_limit : Q := 9223372036.

(** A magnitude any int converts to a float without overflow. *)
Definition float_limit : Z := 2 ^ 1023.

Definition delays_in_range (max_retries : Z) (base_delay max_delay : Q) : Prop :=
  (- sleep_limit <= max_delay)%Q /\
  (max_delay <= sleep_limit)%Q /\
  (4 ^ (max_retries - 1) <= float_limit)%Z /\
  (Qabs base_delay * inject_Z (4 ^ (max_retries - 1)) <= inject_Z float_limit)%Q /\
  (- sleep_limit <= base_delay * inject_Z (4 ^ (max_retries - 1)))%Q.


(** ** Further observations on a run *)

(** Total time slept. *)
Definition total_sleep (tr : list event) : Q :=
  fold_right Qplus 0%Q (sleeps tr).

(** Calls and sleeps in turn: [n] calls with a sleep between any two. *)
Definition alternation (n : nat) : list (option nat) :=
  match n with
  | O => []
  | S j => (flat_map (fun i => [Some i; None]) (seq 0 j) ++ [Some j])%list
  end.

(** What a run comes to when every sleep is accepted, as a function of the
    agent and of [max_retries] alone: [n] is the number of calls. *)
Definition ideal_run (agent : Agent) (question : string) (max_retries : Z)
    (r : result) (n : nat) : Prop :=
  match n with
  | O => (max_retries < 0)%Z /\ r = after_loop max_retries None
  | S j =>
      (Z.of_nat j <= max_retries)%Z /\
      (forall i, i < j -> attempt_fails agent question i) /\
      match attempt_result (agent (prompt_template_invoke question) j) with
      | inr output =>
          r = Returned (sql_query (handler_after agent question (S j))) output
      | inl e =>
          if is_Exception e
          then (Z.of_nat (S j) > max_retries)%Z /\
               r = after_loop max_retries (Some e)
          else r = Escaped e
      end
  end.

(** An agent whose responses never carry the key [output]. *)
Definition without_output : Agent :=
  scripted [] (mk_outcome [select_action] (Return {[ "answer" := "42" ]})).

(** The notebook's calls, [invoke_agent(agent, question)]: the default
    arguments [max_retries=5], [base_delay=5], [max_delay=60]. *)
Definition invoke_agent_default (rng : nat -> Q) (agent : Agent)
    (question : string) : option (result * world) :=
  invoke_agent rng agent question 5 5 60.

(** * The table filter of the Text-to-SQL notebook *)

(** A [SQLDatabase], as far as the notebook uses it: the names its method
    [get_usable_table_names] returns. *)
Record SQLDatabase := mk_db {
  get_usable_table_names : list string
}.

(** [FilteredSQLDatabase]: the subclass whose [get_usable_table_names]
    returns the notebook's variable [filtered_tables]. *)
Definition FilteredSQLDatabase (filtered_tables : list string) : SQLDatabase :=
  {| get_usable_table_names := filtered_tables |}.

(** [get_filtered_tables]:
    [[table for table in all_tables if table in desired_tables]] *)
Definition get_filtered_tables (db : SQLDatabase) (desired_tables : list string)
  : list string :=
  let all_tables := get_usable_table_names db in
  filter (fun table => table ∈ desired_tables) all_tables.

(** * Requests to retrieve_and_generate

    The functions [retrieve_and_generate_without_filter] and
    [retrieve_and_generate_with_filter] of the retrieval notebook and
    [retrieve_and_generate_with_conditional_guardrails] of the guardrails
    notebook build a request and hand it to the Bedrock client. *)

(** Python values: what the requests are made of. A [dict] with string keys
    is a finite map; equality of dicts does not depend on insertion order. *)
#[warnings="-register-all"]
Inductive pyval :=
| PNone
| PBool (b : bool)
| PInt (n : Z)
| PStr (s : string)
| PList (l : list pyval)
| PDict (d : gmap string pyval).

(** Truth value testing, as [if x:] does it. *)
Definition truthy (v : pyval) : bool :=
  match v with
  | PNone => false
  | PBool b => b
  | PInt n => negb (n =? 0)%Z
  | PStr s => negb (String.eqb s "")
  | PList l => match l with [] => false | _ => true end
  | PDict d => negb (bool_decide (d = ∅))
  end.

(** [KeyError(k)]; its description is the [repr] of the key. *)
Definition KeyError (k : string) : exn :=
  mk_exn "KeyError" true ("'" ++ k ++ "'").

(** [TypeError] of subscripting a value that is not a dict. The text of
    the description depends on the operand and is left out. *)
Definition TypeError_subscript : exn :=
  mk_exn "TypeError" true "".

(** [v[k]] *)
Definition getitem (k : string) (v : pyval) : exn + pyval :=
  match v with
  | PDict d =>
      match d !! k with
      | Some x => inr x
      | None => inl (KeyError k)
      end
  | _ => inl TypeError_subscript
  end.

(** [v[k] = x] on a dict held in a nest of dicts: the value afterwards. *)
Definition setitem (k : string) (x : pyval) (v : pyval) : exn + pyval :=
  match v with
  | PDict d => inr (PDict (<[k := x]> d))
  | _ => inl TypeError_subscript
  end.

(** [v[k1][k2]...[kn] = x]: the outer dict after the assignment. *)
Fixpoint setitem_path (path : list string) (k : string) (x : pyval) (v : pyval)
  : exn + pyval :=
  match path with
  | [] => setitem k x v
  | k1 :: path' =>
      match getitem k1 v with
      | inl e => inl e
      | inr sub =>
          match setitem_path path' k x sub with
          | inl e => inl e
          | inr sub' => setitem k1 sub' v
          end
      end
  end.

(** [v[k1][k2]...[kn]], [None] when a key is missing. *)
Fixpoint get_path (path : list string) (v : pyval) : option pyval :=
  match path with
  | [] => Some v
  | k :: path' =>
      match v with
      | PDict d => d !! k ≫= get_path path'
      | _ => None
      end
  end.

(** [del v[k1]...[kn][k]] where the path exists, else [v]. *)
Fixpoint del_path (path : list string) (k : string) (v : pyval) : pyval :=
  match v with
  | PDict d =>
      match path with
      | [] => PDict (delete k d)
      | k1 :: path' =>
          match d !! k1 with
          | Some sub => PDict (<[k1 := del_path path' k sub]> d)
          | None => v
          end
      end
  | _ => v
  end.

(** The Bedrock client's [retrieve_and_generate]: for the keyword
    arguments, as a dict, a response or an exception. *)
Definition Client := pyval -> exn + pyval.

(** A call of the client: its result and the request sent. *)
Definition client_call (client : Client) (kwargs : pyval)
  : (exn + pyval) * list pyval :=
  (client kwargs, [kwargs]).

(** [retrieve_and_generate_without_filter] *)
Definition retrieve_and_generate_without_filter (client : Client)
    (query knowledge_base_id model_arn : pyval) : (exn + pyval) * list pyval :=
  client_call client (PDict {[
    "input" := PDict {[ "text" := query ]};
    "retrieveAndGenerateConfiguration" := PDict {[
      "type" := PStr "KNOWLEDGE_BASE";
      "knowledgeBaseConfiguration" := PDict {[
        "knowledgeBaseId" := knowledge_base_id;
        "modelArn" := model_arn;
        "retrievalConfiguration" := PDict {[
          "vectorSearchConfiguration" := PDict {[
            "numberOfResults" := PInt 5 ]} ]} ]} ]} ]}).

(** [retrieve_and_generate_with_filter] *)
Definition retrieve_and_generate_with_filter (client : Client)
    (query knowledge_base_id model_arn metadata_filter : pyval)
  : (exn + pyval) * list pyval :=
  client_call client (PDict {[
    "input" := PDict {[ "text" := query ]};
    "retrieveAndGenerateConfiguration" := PDict {[
      "type" := PStr "KNOWLEDGE_BASE";
      "knowledgeBaseConfiguration" := PDict {[
        "knowledgeBaseId" := knowledge_base_id;
        "modelArn" := model_arn;
        "retrievalConfiguration" := PDict {[
          "vectorSearchConfiguration" := PDict {[
            "numberOfResults" := PInt 5;
            "filter" := metadata_filter ]} ]} ]} ]} ]}).

Definition text_prompt_template : string :=
"Answer the following question based on the context:
$search_results$

Question: {question}".

Definition ValueError_guardrail_id : exn :=
  mk_exn "ValueError" true "guardrail_id is required when use_guardrails is True".

(** The statements of [retrieve_and_generate_with_conditional_guardrails]
    that build [kb_config], in order; an exception ends them. *)
Definition build_kb_config
    (knowledge_base_id model_arn metadata_filter use_guardrails
     guardrail_id guardrail_version : pyval) : exn + pyval :=
  let kb_config := PDict {[
    "knowledgeBaseId" := knowledge_base_id;
    "modelArn" := model_arn;
    "retrievalConfiguration" := PDict {[
      "vectorSearchConfiguration" := PDict {[
        "numberOfResults" := PInt 5 ]} ]} ]} in
  match (if truthy metadata_filter
         then setitem_path ["retrievalConfiguration"; "vectorSearchConfiguration"]
                "filter" metadata_filter kb_config
         else inr kb_config) with
  | inl e => inl e
  | inr kb_config =>
      match setitem "generationConfiguration"
              (PDict {[ "promptTemplate" := PDict {[
                          "textPromptTemplate" := PStr text_prompt_template ]} ]})
              kb_config with
      | inl e => inl e
      | inr kb_config =>
          if truthy use_guardrails then
            if negb (truthy guardrail_id) then inl ValueError_guardrail_id
            else
              let guardrail_config := PDict {[ "guardrailId" := guardrail_id ]} in
              match (if truthy guardrail_version
                     then setitem "guardrailVersion" guardrail_version
                            guardrail_config
                     else inr guardrail_config) with
              | inl e => inl e
              | inr guardrail_config =>
                  setitem_path ["generationConfiguration"]
                    "guardrailConfiguration" guardrail_config kb_config
              end
          else inr kb_config
      end
  end.

(** [retrieve_and_generate_with_conditional_guardrails] *)
Definition retrieve_and_generate_with_conditional_guardrails (client : Client)
    (query knowledge_base_id model_arn metadata_filter use_guardrails
     guardrail_id guardrail_version : pyval) : (exn + pyval) * list pyval :=
  match build_kb_config knowledge_base_id model_arn metadata_filter
          use_guardrails guardrail_id guardrail_version with
  | inl e => (inl e, [])
  | inr kb_config =>
      client_call client (PDict {[
        "input" := PDict {[ "text" := query ]};
        "retrieveAndGenerateConfiguration" := PDict {[
          "type" := PStr "KNOWLEDGE_BASE";
          "knowledgeBaseConfiguration" := kb_config ]} ]})
  end.

(** Paths into a request. *)
Definition kb_config_path : list string :=
  ["retrieveAndGenerateConfiguration"; "knowledgeBaseConfiguration"].

Definition vector_search_path : list string :=
  (kb_config_path ++ ["retrievalConfiguration"; "vectorSearchConfiguration"])%list.

Definition generation_path : list string :=
  (kb_config_path ++ ["generationConfiguration"])%list.

(** Sample values. *)
Definition year_filter : pyval :=
  PDict {[ "equals" := PDict {[ "key" := PStr "year"; "value" := PInt 2023 ]} ]}.

Definition echo_client : Client := fun kwargs => inr kwargs.

(** * Printing the citations *)

(** What [print] writes for a value: a string as it is, anything else by
    its [repr], which is a parameter here. *)
Definition print_str (repr : pyval -> string) (v : pyval) : string :=
  match v with
  | PStr s => s
  | _ => repr v
  end.

(** [print(label, value, end='\n'*2)]: the text written. *)
Definition print_labelled (repr : pyval -> string) (label : string) (v : pyval)
  : string :=
  label ++ " " ++ print_str repr v ++ "

".

(** The body of the loop of [citations_rag_print] for one chunk: the
    texts written, and the exception that ends it, if any. *)
Definition print_chunk (repr : pyval -> string) (num : Z) (chunk : pyval)
  : list string * option exn :=
  match getitem "content" chunk with
  | inl e => ([], Some e)
  | inr content =>
      match getitem "text" content with
      | inl e => ([], Some e)
      | inr text =>
          let line1 := print_labelled repr ("Chunk " ++ str_int num ++ ": ") text in
          match getitem "location" chunk with
          | inl e => ([line1], Some e)
          | inr location =>
              let line2 := print_labelled repr
                             ("Chunk " ++ str_int num ++ " Location: ") location in
              match getitem "metadata" chunk with
              | inl e => ([line1; line2], Some e)
              | inr metadata =>
                  let line3 := print_labelled repr
                                 ("Chunk " ++ str_int num ++ " Metadata: ")
                                 metadata in
                  ([line1; line2; line3], None)
              end
          end
      end
  end.

(** [for num, chunk in enumerate(response_ret, start): ...] *)
Fixpoint citations_loop (repr : pyval -> string) (num : Z)
    (response_ret : list pyval) : list string * option exn :=
  match response_ret with
  | [] => ([], None)
  | chunk :: rest =>
      match print_chunk repr num chunk with
      | (written, Some e) => (written, Some e)
      | (written, None) =>
          let '(more, err) := citations_loop repr (num + 1) rest in
          ((written ++ more)%list, err)
      end
  end.

(** [citations_rag_print] *)
Definition citations_rag_print (repr : pyval -> string)
    (response_ret : list pyval) : list string * option exn :=
  citations_loop repr 1 response_ret.

(** A chunk with the three keys the function reads. *)
Definition well_formed_chunk (chunk : pyval) : Prop :=
  exists text location metadata,
    get_path ["content"; "text"] chunk = Some text /\
    get_path ["location"] chunk = Some location /\
    get_path ["metadata"] chunk = Some metadata.

Definition sample_chunk (text : string) : pyval :=
  PDict {[ "content" := PDict {[ "text" := PStr text ]};
           "location" := PDict {[ "type" := PStr "S3" ]};
           "metadata" := PDict {[ "year" := PInt 2023 ]} ]}.

Definition sample_repr : pyval -> string := fun _ => "{...}".

(** * Starting and watching the ingestion job

    The cell of the knowledge base notebook that starts an ingestion job
    and polls its status. *)

(** The two operations of the Bedrock agent client the cell uses. The
    service changes state between calls: the result of
    [get_ingestion_job] depends on the number of earlier polls. *)
Record BedrockAgent := mk_bedrock_agent {
  start_ingestion_job : pyval -> exn + pyval;
  get_ingestion_job : nat -> pyval -> exn + pyval
}.

Inductive cell_event :=
| CPrint (text : string)
| CSleep (seconds : Z)
| CStart (kwargs : pyval)
| CGet (kwargs : pyval).

(** How the cell ends. *)
Inductive cell_result :=
| Finished
| Propagated (e : exn).

(** [job['status'] != 'COMPLETE'] is false. *)
Definition is_complete (status : pyval) : bool :=
  match status with
  | PStr s => String.eqb s "COMPLETE"
  | _ => false
  end.

Section IngestionCell.

Variable bedrock_agent : BedrockAgent.
Variables kb ds_semantic_chunk : pyval.

(** The [while] loop. [None]: still polling when the fuel ran out. *)
Fixpoint poll_loop (fuel : nat) (polls : nat) (job : pyval)
    (tr : list cell_event) : option (option exn * list cell_event) :=
  match getitem "status" job with
  | inl e => Some (Some e, tr)
  | inr status =>
      if is_complete status then Some (None, tr)
      else
        match fuel with
        | O => None
        | S fuel' =>
            let tr := (tr ++ [CPrint "running..."; CSleep 10])%list in
            match getitem "knowledgeBaseId" kb with
            | inl e => Some (Some e, tr)
            | inr kb_id =>
                match getitem "dataSourceId" ds_semantic_chunk with
                | inl e => Some (Some e, tr)
                | inr ds_id =>
                    match getitem "ingestionJobId" job with
                    | inl e => Some (Some e, tr)
                    | inr job_id =>
                        let kwargs := PDict {[ "knowledgeBaseId" := kb_id;
                                               "dataSourceId" := ds_id;
                                               "ingestionJobId" := job_id ]} in
                        let tr := (tr ++ [CGet kwargs])%list in
                        match get_ingestion_job bedrock_agent polls kwargs with
                        | inl e => Some (Some e, tr)
                        | inr get_job_response =>
                            match getitem "ingestionJob" get_job_response with
                            | inl e => Some (Some e, tr)
                            | inr job' => poll_loop fuel' (S polls) job' tr
                            end
                        end
                    end
                end
            end
        end
  end.

(** The body of the [try]. *)
Definition try_ingestion (fuel : nat) : option (option exn * list cell_event) :=
  match getitem "knowledgeBaseId" kb with
  | inl e => Some (Some e, [])
  | inr kb_id =>
      match getitem "dataSourceId" ds_semantic_chunk with
      | inl e => Some (Some e, [])
      | inr ds_id =>
          let kwargs := PDict {[ "knowledgeBaseId" := kb_id;
                                 "dataSourceId" := ds_id ]} in
          let tr := [CStart kwargs] in
          match start_ingestion_job bedrock_agent kwargs with
          | inl e => Some (Some e, tr)
          | inr start_job_response =>
              match getitem "ingestionJob" start_job_response with
              | inl e => Some (Some e, tr)
              | inr job =>
                  let tr := (tr ++ [CPrint "Ingestion job started successfully
"])%list in
                  match poll_loop fuel 0 job tr with
                  | None => None
                  | Some (Some e, tr) => Some (Some e, tr)
                  | Some (None, tr) =>
                      Some (None, (tr ++ [CPrint "Job completed successfully
"])%list)
                  end
              end
          end
      end
  end.

(** The cell: the [try] with its [except Exception as e]. *)
Definition ingestion_cell (fuel : nat) : option (cell_result * list cell_event) :=
  match try_ingestion fuel with
  | None => None
  | Some (None, tr) => Some (Finished, tr)
  | Some (Some e, tr) =>
      if is_Exception e
      then Some (Finished,
                 (tr ++ [CPrint "Couldn't start job.
"; CPrint (exn_str e)])%list)
      else Some (Propagated e, tr)
  end.

End IngestionCell.

(** Number of completed sleeps of the cell. *)
Fixpoint count_sleeps (tr : list cell_event) : nat :=
  match tr with
  | [] => 0
  | CSleep _ :: tr' => S (count_sleeps tr')
  | _ :: tr' => count_sleeps tr'
  end.

(** Time the cell slept, in seconds. *)
Fixpoint seconds_slept (tr : list cell_event) : Z :=
  match tr with
  | [] => 0
  | CSleep s :: tr' => s + seconds_slept tr'
  | _ :: tr' => seconds_slept tr'
  end.

(** Number of status polls of the cell. *)
Fixpoint count_polls (tr : list cell_event) : nat :=
  match tr with
  | [] => 0
  | CGet _ :: tr' => S (count_polls tr')
  | _ :: tr' => count_polls tr'
  end.

(** A service that answers in the expected form: the job started has the
    identifier [job_id], and its status is [statuses 0] at the start and
    [statuses (k + 1)] at the poll after [k] earlier ones. *)
Definition job_state (job_id : string) (status : string) : pyval :=
  PDict {[ "ingestionJobId" := PStr job_id; "status" := PStr status ]}.

Definition job_report (job_id : string) (status : string) : pyval :=
  PDict {[ "ingestionJob" := job_state job_id status ]}.

Definition reporting_service (job_id : string) (statuses : nat -> string)
  : BedrockAgent :=
  {| start_ingestion_job := fun _ => inr (job_report job_id (statuses 0));
     get_ingestion_job := fun polls _ =>
                            inr (job_report job_id (statuses (S polls))) |}.

Definition sample_kb : pyval := PDict {[ "knowledgeBaseId" := PStr "KB1" ]}.
Definition sample_ds : pyval := PDict {[ "dataSourceId" := PStr "DS1" ]}.

(** Complete at the third poll. *)
Definition third_time_lucky : nat -> string :=
  fun k => if (k <? 3)%nat then "IN_PROGRESS" else "COMPLETE".

(** A job that fails and stays failed. *)
Definition failed_for_good : nat -> string :=
  fun k => if (k <? 1)%nat then "STARTING" else "FAILED".

(** A service that reports like [reporting_service] for [n] polls and
    raises [e] at the next one. *)
Definition failing_service (job_id : string) (statuses : nat -> string)
    (n : nat) (e : exn) : BedrockAgent :=
  {| start_ingestion_job := fun _ => inr (job_report job_id (statuses 0));
     get_ingestion_job := fun polls _ =>
                            if (polls <? n)%nat
                            then inr (job_report job_id (statuses (S polls)))
                            else inl e |}.

(** The service reports the statuses for the polls [polls .. polls + n - 1],
    and none of the statuses seen before these polls is COMPLETE. *)
Definition reports_from (bedrock_agent : BedrockAgent) (job_id : string)
    (statuses : nat -> string) (polls n : nat) : Prop :=
  forall k, k < n ->
    statuses (polls + k) <> "COMPLETE" /\
    forall kwargs,
      get_ingestion_job bedrock_agent (polls + k) kwargs =
      inr (job_report job_id (statuses (S (polls + k)))).

(** ** Basic facts about the steps *)

Lemma backoff_delay_eq rng base_delay max_delay attempt e w :
  backoff_delay rng base_delay max_delay attempt e w =
  (delay_value base_delay max_delay attempt e (rng (draws w)),
   {| handler := handler w; calls := calls w;
      draws := S (draws w); trace := trace w |}).
Proof.
  unfold backoff_delay, delay_value, jitter_of, random_uniform.
  destruct (is_throttling_str (exn_str e)); reflexivity.
Qed.

Lemma try_block_eq agent p w :
  try_block agent p w =
  let w1 := {| handler := fold_left on_agent_action
                            (actions (agent p (calls w))) (handler w);
               calls := S (calls w);
               draws := draws w;
               trace := (trace w ++ [EInvoke (calls w)])%list |} in
  (match attempt_result (agent p (calls w)) with
   | inl e => inl e
   | inr output => inr (sql_query (handler w1), output)
   end, w1).
Proof.
  unfold try_block, agent_invoke, attempt_result.
  destruct (ending_of (agent p (calls w))) as [response|e]; simpl; [|reflexivity].
  destruct (getitem_output response); reflexivity.
Qed.

Lemma handler_after_S agent question n :
  handler_after agent question (S n) =
  fold_left on_agent_action
    (actions (agent (prompt_template_invoke question) n))
    (handler_after agent question n).
Proof.
  unfold handler_after, all_actions.
  rewrite seq_S, map_app, concat_app, fold_left_app. simpl.
  rewrite app_nil_r. reflexivity.
Qed.

Lemma trace_rounds_S rng agent question base_delay max_delay n :
  trace_rounds rng agent question base_delay max_delay (S n) =
  (trace_rounds rng agent question base_delay max_delay n
   ++ [EInvoke n; ESleep (sleep_of rng agent question base_delay max_delay n)])%list.
Proof.
  unfold trace_rounds.
  rewrite seq_S, flat_map_app. simpl. reflexivity.
Qed.

(** ** Every run meets its description *)

Section LoopSpec.

Variable rng : nat -> Q.
Variable agent : Agent.
Variable question : string.
Variable max_retries : Z.
Variables base_delay max_delay : Q.

Local Abbreviation p := (prompt_template_invoke question).

Lemma world_init_inv : loop_inv rng agent question max_retries base_delay max_delay 0 None world_init.
Proof.
  split; simpl; try reflexivity; intros; lia.
Qed.

(** Leaving the loop by its condition: only before the first call. *)
Lemma exit_spec a last_exception w :
  (max_retries < Z.of_nat a)%Z ->
  loop_inv rng agent question max_retries base_delay max_delay a last_exception w ->
  exists r w',
    Some (after_loop max_retries last_exception, w) = Some (r, w') /\
    run_spec rng agent question max_retries base_delay max_delay r w'.
Proof.
  intros Hgt [Hc Hd Hh Ht Hr Hf Hb].
  destruct a as [|a]; [|lia].
  exists (after_loop max_retries last_exception), w. split; [reflexivity|].
  split; rewrite Hc.
  - exact Hh.
  - exact Ht.
  - intros i Hi. lia.
  - split; [lia|]. rewrite (Hf eq_refl). reflexivity.
Qed.

Lemma while_loop_spec fuel : forall a last_exception w,
  (max_retries + 1 <= Z.of_nat a + Z.of_nat fuel)%Z ->
  loop_inv rng agent question max_retries base_delay max_delay a last_exception w ->
  exists r w',
    while_loop rng agent max_retries base_delay max_delay
               fuel p a last_exception w = Some (r, w') /\
    run_spec rng agent question max_retries base_delay max_delay r w'.
Proof.
  induction fuel as [|fuel IH]; intros a last w Hfuel Hinv;
    destruct Hinv as [Hc Hd Hh Ht Hr Hf Hb].
  - (* no iteration left: the loop condition is false *)
    simpl. destruct (Z.leb_spec (Z.of_nat a) max_retries) as [Hle|Hgt]; [lia|].
    apply (exit_spec a); [lia | split; assumption].
  - simpl. destruct (Z.leb_spec (Z.of_nat a) max_retries) as [Hle|Hgt].
    + rewrite try_block_eq. cbv zeta. rewrite Hc.
      destruct (attempt_result (agent p a)) as [e|output] eqn:Hres.
      * destruct (is_Exception e) eqn:Hexc.
        -- destruct (Z.gtb_spec (Z.of_nat (S a)) max_retries) as [Hbr|Hgo].
           ++ (* retry limit reached: break *)
              eexists _, _. split; [reflexivity|].
              split; simpl.
              ** rewrite handler_after_S, Hh. reflexivity.
              ** rewrite Ht. reflexivity.
              ** intros i Hi. apply Hr. lia.
              ** split; [lia|]. unfold last_call_result.
                 rewrite Hres, Hexc.
                 destruct (Z.gtb_spec (Z.of_nat (S a)) max_retries); [reflexivity|lia].
           ++ rewrite backoff_delay_eq. simpl draws. rewrite Hd.
              unfold time_sleep.
              destruct (Qle_bool 0 (delay_value base_delay max_delay (S a) e (rng a)))
                eqn:Hsleep.
              ** (* the sleep is accepted: next iteration *)
                 apply IH; [lia|].
                 split; simpl; try reflexivity.
                 --- rewrite handler_after_S, Hh. reflexivity.
                 --- rewrite trace_rounds_S, Ht, <- app_assoc. simpl.
                     unfold sleep_of. rewrite Hres. reflexivity.
                 --- intros i Hi.
                     destruct (Nat.eq_dec i a) as [->|Hne]; [|apply Hr; lia].
                     exists e. repeat split; auto; lia.
                 --- intros; lia.
                 --- intros _. lia.
              ** (* the sleep raises *)
                 eexists _, _. split; [reflexivity|].
                 split; simpl.
                 --- rewrite handler_after_S, Hh. reflexivity.
                 --- rewrite Ht. reflexivity.
                 --- intros i Hi. apply Hr. lia.
                 --- split; [lia|]. unfold last_call_result.
                     rewrite Hres, Hexc.
                     destruct (Z.gtb_spec (Z.of_nat (S a)) max_retries); [lia|].
                     split; [exact Hsleep | reflexivity].
        -- (* not an Exception: it propagates *)
           eexists _, _. split; [reflexivity|].
           split; simpl.
           ++ rewrite handler_after_S, Hh. reflexivity.
           ++ rewrite Ht. reflexivity.
           ++ intros i Hi. apply Hr. lia.
           ++ split; [lia|]. unfold last_call_result.
              rewrite Hres, Hexc. reflexivity.
      * (* success *)
        eexists _, _. split; [reflexivity|].
        split; simpl.
        -- rewrite handler_after_S, Hh. reflexivity.
        -- rewrite Ht. reflexivity.
        -- intros i Hi. apply Hr. lia.
        -- split; [lia|]. unfold last_call_result.
           rewrite Hres. reflexivity.
    + apply (exit_spec a); [lia | split; assumption].
Qed.

(** [invoke_agent] always comes to an end, and the run is as described. *)
Lemma invoke_agent_spec :
  exists r w,
    invoke_agent rng agent question max_retries base_delay max_delay = Some (r, w) /\
    run_spec rng agent question max_retries base_delay max_delay r w.
Proof.
  unfold invoke_agent. apply while_loop_spec.
  - lia.
  - apply world_init_inv.
Qed.

(** The description holds of the run that [invoke_agent] makes. *)
Lemma run_spec_of_run r w :
  invoke_agent rng agent question max_retries base_delay max_delay = Some (r, w) ->
  run_spec rng agent question max_retries base_delay max_delay r w.
Proof.
  intros Hrun. destruct invoke_agent_spec as (r' & w' & Hrun' & Hspec).
  rewrite Hrun in Hrun'. injection Hrun' as <- <-. exact Hspec.
Qed.

End LoopSpec.

(** ** Delays *)


Lemma jitter_of_nonneg b u :
  (0 <= b)%Q -> (0 <= u)%Q -> (0 <= jitter_of b u)%Q.
Proof.
  intros Hb Hu. unfold jitter_of.
  rewrite Qplus_0_l. apply Qmult_le_0_compat; [|exact Hu].
  unfold Qminus. rewrite Qplus_0_r. exact Hb.
Qed.

Lemma scaled_base_nonneg base_delay k n :
  (0 <= base_delay)%Q -> (0 <= k)%Z -> (0 <= base_delay * inject_Z (k ^ n))%Q.
Proof.
  intros Hb Hk. apply Qmult_le_0_compat; [exact Hb|].
  change 0%Q with (inject_Z 0). rewrite <- Zle_Qle.
  destruct (Z.le_gt_cases 0 n) as [Hn|Hn].
  - apply Z.pow_nonneg. exact Hk.
  - rewrite Z.pow_neg_r by exact Hn. lia.
Qed.

Lemma delay_value_nonneg base_delay max_delay attempt e u :
  (0 <= base_delay)%Q -> (0 <= max_delay)%Q -> (0 <= u)%Q ->
  Qle_bool 0 (delay_value base_delay max_delay attempt e u) = true.
Proof.
  intros Hb Hm Hu. apply Qle_bool_iff. unfold delay_value.
  destruct (is_throttling_str (exn_str e)); apply Q.min_glb; try exact Hm.
  - rewrite <- (Qplus_0_r 0). apply Qplus_le_compat.
    + apply scaled_base_nonneg; [exact Hb | lia].
    + apply jitter_of_nonneg; [discriminate | exact Hu].
  - rewrite <- (Qplus_0_r 0). apply Qplus_le_compat.
    + apply scaled_base_nonneg; [exact Hb | lia].
    + apply jitter_of_nonneg; [discriminate | exact Hu].
Qed.

Lemma delay_value_le_max base_delay max_delay attempt e u :
  (delay_value base_delay max_delay attempt e u <= max_delay)%Q.
Proof.
  unfold delay_value.
  destruct (is_throttling_str (exn_str e)); apply Q.le_min_r.
Qed.

(** ** Traces *)

Lemma count_invokes_app tr1 tr2 :
  count_invokes (tr1 ++ tr2) = count_invokes tr1 + count_invokes tr2.
Proof.
  induction tr1 as [|[i|d] tr1 IH]; simpl; [reflexivity | rewrite IH | ]; auto.
Qed.

Lemma sleeps_app tr1 tr2 :
  sleeps (tr1 ++ tr2) = (sleeps tr1 ++ sleeps tr2)%list.
Proof.
  induction tr1 as [|[i|d] tr1 IH]; simpl; [reflexivity | | rewrite IH]; auto.
Qed.

Section Rounds.

Variable rng : nat -> Q.
Variable agent : Agent.
Variable question : string.
Variables base_delay max_delay : Q.

Local Abbreviation rounds := (trace_rounds rng agent question base_delay max_delay).
Local Abbreviation sleep_at := (sleep_of rng agent question base_delay max_delay).

Lemma count_invokes_rounds n : count_invokes (rounds n) = n.
Proof.
  induction n as [|n IH]; [reflexivity|].
  rewrite trace_rounds_S, count_invokes_app, IH.
  simpl. lia.
Qed.

Lemma sleeps_rounds n : sleeps (rounds n) = map sleep_at (seq 0 n).
Proof.
  induction n as [|n IH]; [reflexivity|].
  rewrite trace_rounds_S, sleeps_app, IH.
  rewrite seq_S, map_app. reflexivity.
Qed.

End Rounds.

Lemma event_kind_rounds rng1 rng2 agent1 agent2 question base_delay max_delay n :
  map event_kind (trace_rounds rng1 agent1 question base_delay max_delay n) =
  map event_kind (trace_rounds rng2 agent2 question base_delay max_delay n).
Proof.
  induction n as [|n IH]; [reflexivity|].
  rewrite !trace_rounds_S, !map_app, IH. reflexivity.
Qed.

(** ** Consequences of the description of a run *)

Section RunFacts.

Variable rng : nat -> Q.
Variable agent : Agent.
Variable question : string.
Variable max_retries : Z.
Variables base_delay max_delay : Q.

Local Abbreviation p := (prompt_template_invoke question).
Local Abbreviation spec := (run_spec rng agent question max_retries base_delay max_delay).

Lemma run_count_invokes r w :
  spec r w -> count_invokes (trace w) = calls w.
Proof.
  intros [_ Htr _ _]. rewrite Htr. destruct (calls w) as [|j]; [reflexivity|].
  rewrite count_invokes_app, count_invokes_rounds. simpl. lia.
Qed.

Lemma run_sleeps r w :
  spec r w ->
  sleeps (trace w) =
  map (sleep_of rng agent question base_delay max_delay) (seq 0 (pred (calls w))).
Proof.
  intros [_ Htr _ _]. rewrite Htr. destruct (calls w) as [|j]; [reflexivity|].
  rewrite sleeps_app, sleeps_rounds. simpl. apply app_nil_r.
Qed.

Lemma run_last_event r w j :
  spec r w -> calls w = S j -> last (trace w) = Some (EInvoke j).
Proof.
  intros [_ Htr _ _] Hc. rewrite Htr, Hc. apply last_snoc.
Qed.

(** An exception of the [try] body is an [Exception] when those the agent
    raises are: the other source is the [KeyError]. *)
Lemma attempt_fault_catchable o e :
  (forall e', ending_of o = Raise e' -> is_Exception e' = true) ->
  attempt_result o = inl e -> is_Exception e = true.
Proof.
  unfold attempt_result, getitem_output. intros Hag.
  destruct (ending_of o) as [response|e'].
  - destruct (response !! "output"); [discriminate|].
    intros [= <-]. reflexivity.
  - intros [= <-]. apply Hag. reflexivity.
Qed.

(** With non-negative delays and catchable faults, the last call either
    succeeded or used up the retries. *)
Lemma run_last_call r w j e :
  (0 <= base_delay)%Q -> (0 <= max_delay)%Q -> (forall i, 0 <= rng i)%Q ->
  spec r w -> calls w = S j ->
  attempt_result (agent p j) = inl e -> is_Exception e = true ->
  (Z.of_nat (S j) > max_retries)%Z /\ r = after_loop max_retries (Some e).
Proof.
  intros Hb Hm Hu [_ _ _ Hres] Hc Hatt Hexc. rewrite Hc in Hres.
  destruct Hres as [_ Hlast]. unfold last_call_result in Hlast.
  rewrite Hatt, Hexc in Hlast.
  destruct (Z.gtb_spec (Z.of_nat (S j)) max_retries) as [Hgt|Hle].
  - split; [lia | exact Hlast].
  - destruct Hlast as [Hneg _].
    rewrite delay_value_nonneg in Hneg by auto. discriminate.
Qed.

End RunFacts.

(** ** Sample runs *)

(** [max_retries = 2], [base_delay = 1], an agent that always fails with a
    fault that is not throttling: three calls, two sleeps, the generic
    message. *)
Example run_always_failing :
  invoke_agent half always_failing "q" 2 1 60 =
  Some (Returned None
          "Unable to get a response from the agent after 2 attempts. Error: boom",
        {| handler := SQLHandler_init; calls := 3; draws := 2;
           trace := [EInvoke 0; ESleep (3 # 2); EInvoke 1; ESleep (5 # 2);
                     EInvoke 2] |}).
Proof. vm_compute. reflexivity. Qed.

(** [max_retries = 5], the agent succeeds at once: one call, no sleep. *)
Example run_first_success :
  invoke_agent half (scripted [] (mk_outcome [select_action] (answer "42")))
               "q" 5 5 60 =
  Some (Returned (Some "SELECT 1") "42",
        {| handler := {| sql_query := Some "SELECT 1" |}; calls := 1;
           draws := 0; trace := [EInvoke 0] |}).
Proof. vm_compute. reflexivity. Qed.

(** A throttled first call is followed by the longer wait; the cap applies
    once the curve passes it. *)
Example run_throttled_then_answer :
  invoke_agent half throttled_then_answer "q" 5 5 60 =
  Some (Returned (Some "SELECT 1") "42",
        {| handler := {| sql_query := Some "SELECT 1" |}; calls := 2;
           draws := 1; trace := [EInvoke 0; ESleep (12 # 2); EInvoke 1] |}).
Proof. vm_compute. reflexivity. Qed.

Example run_always_throttled_capped :
  sleeps (trace (default world_init
    (snd <$> invoke_agent half always_throttled "q" 3 5 60))) =
  [(12 # 2)%Q; (42 # 2)%Q; 60%Q].
Proof. vm_compute. reflexivity. Qed.

(** A response without the key [output] counts as a failed attempt. *)
Example run_missing_output :
  invoke_agent half (scripted [] (mk_outcome [] (Return ∅))) "q" 0 5 60 =
  Some (Returned None
          "Unable to get a response from the agent after 0 attempts. Error: 'output'",
        {| handler := SQLHandler_init; calls := 1; draws := 0;
           trace := [EInvoke 0] |}).
Proof. vm_compute. reflexivity. Qed.

Example contains_examples :
  contains "ThrottlingException" (exn_str throttling_fault) = true /\
  contains "Too many requests" "429 Too many requests" = true /\
  is_throttling_str "boom" = false /\
  is_throttling_str "None" = false /\
  is_throttling_str "too many requests" = false.
Proof. vm_compute. repeat split. Qed.

(** ** The result shapes (C1) *)

Lemma scripted_raises_only_Exception script otherwise question :
  Forall (fun o => forall e, ending_of o = Raise e -> is_Exception e = true)
         (otherwise :: script) ->
  raises_only_Exception (scripted script otherwise) question.
Proof.
  intros Hall i e. unfold scripted.
  apply Forall_cons in Hall as [Hd Hs].
  revert i. induction Hs as [|o script Ho Hs IH]; intros [|i]; simpl; eauto.
Qed.

(** The defaults are in the range CPython computes and sleeps; 512 retries
    at the defaults, a [base_delay] of 10^400 and a [max_delay] of 10^10
    seconds are not. *)
Lemma default_delays_in_range : delays_in_range 5 5 60.
Proof. repeat split; vm_compute; discriminate. Qed.

Lemma delays_out_of_range :
  ~ delays_in_range 512 5 60 /\
  ~ delays_in_range 1 (inject_Z (10 ^ 400)) 60 /\
  ~ delays_in_range 1 5 10000000000.
Proof.
  split; [|split].
  - intros (_ & _ & _ & H & _). vm_compute in H. apply H. reflexivity.
  - intros (_ & _ & _ & H & _). vm_compute in H. apply H. reflexivity.
  - intros (_ & H & _). vm_compute in H. apply H. reflexivity.
Qed.





(** ** Exhausting the retries (C2) *)

Lemma always_failing_fails i : attempt_fails always_failing "q" i.
Proof.
  exists generic_fault. unfold always_failing, scripted.
  destruct i; split; reflexivity.
Qed.

(** C2, as stated, fails: with a negative [max_delay] the agent that always
    faults is called once, not [max_retries + 1] times, and a [ValueError]
    propagates; with [max_retries = -2] it is called zero times, not [-1]. *)
Lemma always_failing_not_exhausted :
  (forall i, attempt_fails always_failing "q" i) /\
  invoke_agent half always_failing "q" 1 5 (-1) =
    Some (Escaped ValueError_sleep,
          {| handler := SQLHandler_init; calls := 1; draws := 1;
             trace := [EInvoke 0] |}) /\
  ~ exhausts_retries half always_failing "q" 1 5 (-1) /\
  ~ exhausts_retries half always_failing "q" (-2) 5 60.
Proof.
  split; [exact always_failing_fails|].
  assert (H1 : invoke_agent half always_failing "q" 1 5 (-1) =
    Some (Escaped ValueError_sleep,
          {| handler := SQLHandler_init; calls := 1; draws := 1;
             trace := [EInvoke 0] |})) by (vm_compute; reflexivity).
  split; [exact H1|]. split.
  - intros (w & m & Hrun & _). rewrite H1 in Hrun. discriminate.
  - intros (w & m & Hrun & Hn & _).
    vm_compute in Hrun. injection Hrun as _ <-. simpl in Hn. discriminate.
Qed.

(** C2, amended: for [max_retries >= 0], non-negative [base_delay],
    [max_delay] and samples, and a configuration in the range where CPython
    computes and sleeps the delays without [OverflowError]
    ([delays_in_range]), if every attempt ends in an [Exception] then
    [invoke_agent] calls the agent exactly [max_retries + 1] times, sleeps
    exactly [max_retries] times, none after the final call, and returns
    [None] with the terminal message for the last exception. *)
Theorem all_attempts_fail rng agent question max_retries base_delay max_delay :
  (0 <= max_retries)%Z ->
  (0 <= base_delay)%Q -> (0 <= max_delay)%Q -> (forall i, (0 <= rng i)%Q) ->
  delays_in_range max_retries base_delay max_delay ->
  (forall i, (Z.of_nat i <= max_retries)%Z -> attempt_fails agent question i) ->
  exists w last_exception,
    invoke_agent rng agent question max_retries base_delay max_delay =
      Some (Returned None (error_message max_retries (Some last_exception)), w) /\
    attempt_result (agent (prompt_template_invoke question) (Z.to_nat max_retries))
      = inl last_exception /\
    Z.of_nat (calls w) = (max_retries + 1)%Z /\
    Z.of_nat (count_invokes (trace w)) = (max_retries + 1)%Z /\
    Z.of_nat (length (sleeps (trace w))) = max_retries /\
    last (trace w) = Some (EInvoke (Z.to_nat max_retries)).
Proof.
  intros Hmr Hb Hm Hu _ Hfail.
  destruct (invoke_agent_spec rng agent question max_retries base_delay max_delay)
    as (r & w & Hrun & Hspec).
  pose proof Hspec as [_ _ _ Hres].
  destruct (calls w) as [|j] eqn:Hc; [destruct Hres; lia|].
  destruct Hres as [Hj _].
  destruct (Hfail j Hj) as (e & Hatt & Hexc).
  destruct (run_last_call _ _ _ _ _ _ _ _ _ _ Hb Hm Hu Hspec Hc Hatt Hexc)
    as [Hgt ->].
  assert (Hjm : j = Z.to_nat max_retries) by lia.
  exists w, e. split; [exact Hrun|].
  rewrite (run_count_invokes _ _ _ _ _ _ _ _ Hspec).
  rewrite (run_sleeps _ _ _ _ _ _ _ _ Hspec), length_map, length_seq.
  rewrite (run_last_event _ _ _ _ _ _ _ _ _ Hspec Hc), Hc. simpl pred.
  rewrite <- Hjm. repeat split; try lia. exact Hatt.
Qed.

Lemma all_attempts_fail_witness :
  exhausts_retries half always_failing "q" 2 1 60.
Proof.
  destruct (all_attempts_fail half always_failing "q" 2 1 60)
    as (w & e & Hrun & _ & _ & Hn & Hs & _).
  - lia.
  - discriminate.
  - discriminate.
  - intros i. discriminate.
  - repeat split; vm_compute; discriminate.
  - intros i _. apply always_failing_fails.
  - exists w, (error_message 2 (Some e)). auto.
Defined.

(** ** Success at attempt k (C3) *)

(** C3, as stated, fails: with a negative [max_delay], an agent that faults
    once and would then succeed is never called a second time, because the
    sleep before the retry raises [ValueError]. *)
Lemma fail_then_answer_not_retried :
  attempt_fails fail_then_answer "q" 0 /\
  attempt_succeeds fail_then_answer "q" 1 "42" /\
  invoke_agent half fail_then_answer "q" 1 5 (-1) =
    Some (Escaped ValueError_sleep,
          {| handler := {| sql_query := Some "SELECT 1" |};
             calls := 1; draws := 1; trace := [EInvoke 0] |}) /\
  ~ succeeds_at half fail_then_answer "q" 1 5 (-1) 2 "42".
Proof.
  split; [exists generic_fault; split; reflexivity|].
  split; [vm_compute; reflexivity|].
  assert (H1 : invoke_agent half fail_then_answer "q" 1 5 (-1) =
    Some (Escaped ValueError_sleep,
          {| handler := {| sql_query := Some "SELECT 1" |};
             calls := 1; draws := 1; trace := [EInvoke 0] |}))
    by (vm_compute; reflexivity).
  split; [exact H1|].
  intros (w & Hrun & _). rewrite H1 in Hrun. discriminate.
Qed.

(** C3, amended: for non-negative [base_delay], [max_delay] and samples, a
    configuration in the range where CPython computes and sleeps the delays
    without [OverflowError] ([delays_in_range]), and
    every [k] with [1 <= k <= max_retries + 1], if the first [k - 1] attempts
    end in an [Exception] and attempt [k] succeeds, then [invoke_agent]
    calls the agent exactly [k] times and sleeps exactly [k - 1] times,
    the [k]-th call is the last event, and the pair returned is the
    handler's query with the output of that call, not a failure message. *)
Theorem success_at_attempt rng agent question max_retries base_delay max_delay
    k output :
  (0 <= base_delay)%Q -> (0 <= max_delay)%Q -> (forall i, (0 <= rng i)%Q) ->
  delays_in_range max_retries base_delay max_delay ->
  1 <= k -> (Z.of_nat k <= max_retries + 1)%Z ->
  (forall i, i < k - 1 -> attempt_fails agent question i) ->
  attempt_succeeds agent question (k - 1) output ->
  succeeds_at rng agent question max_retries base_delay max_delay k output.
Proof.
  intros Hb Hm Hu _ Hk1 Hk Hfail Hok.
  destruct (invoke_agent_spec rng agent question max_retries base_delay max_delay)
    as (r & w & Hrun & Hspec).
  pose proof Hspec as [Hh _ Hret Hres].
  destruct (calls w) as [|j] eqn:Hc; [destruct Hres; lia|].
  destruct Hres as [Hj Hlast].
  assert (Hjk : j = k - 1).
  { destruct (Nat.lt_trichotomy j (k - 1)) as [Hlt|[Heq|Hgt]]; [|exact Heq|].
    - destruct (Hfail j Hlt) as (e & Hatt & Hexc).
      destruct (run_last_call _ _ _ _ _ _ _ _ _ _ Hb Hm Hu Hspec Hc Hatt Hexc)
        as [Hover _]. lia.
    - destruct (Hret (k - 1)) as (e & Hatt & _); [lia|].
      unfold attempt_succeeds in Hok. rewrite Hok in Hatt. discriminate. }
  unfold last_call_result in Hlast. unfold attempt_succeeds in Hok.
  rewrite Hjk, Hok in Hlast. subst r.
  exists w. split; [exact Hrun|].
  rewrite (run_count_invokes _ _ _ _ _ _ _ _ Hspec).
  rewrite (run_sleeps _ _ _ _ _ _ _ _ Hspec), length_map, length_seq.
  rewrite (run_last_event _ _ _ _ _ _ _ _ _ Hspec Hc), Hc, Hh, Hjk.
  replace (S (k - 1)) with k by lia. repeat split; lia.
Qed.

Lemma success_at_attempt_witness :
  succeeds_at half fail_then_answer "q" 5 5 60 2 "42".
Proof.
  apply (success_at_attempt half fail_then_answer "q" 5 5 60 2 "42").
  - discriminate.
  - discriminate.
  - intros i. discriminate.
  - repeat split; vm_compute; discriminate.
  - lia.
  - lia.
  - intros i Hi. assert (i = 0) as -> by lia.
    exists generic_fault. split; reflexivity.
  - reflexivity.
Defined.

(** ** Substring search *)

Lemma append_cons c s t : String c s ++ t = String c (s ++ t).
Proof. reflexivity. Qed.

Lemma prefix_occurs needle : forall haystack,
  String.prefix needle haystack = true <-> exists rest, haystack = needle ++ rest.
Proof.
  induction needle as [|a needle IH]; intros haystack.
  - split; [intros _; exists haystack; reflexivity|].
    intros _. destruct haystack; reflexivity.
  - destruct haystack as [|b haystack]; simpl.
    + split; [discriminate | intros [rest Hrest]; discriminate].
    + destruct (Ascii.ascii_dec a b) as [->|Hne].
      * rewrite IH. split; intros [rest Hrest]; exists rest; rewrite ?append_cons in *; congruence.
      * split; [discriminate|]. intros [rest Hrest]. rewrite append_cons in Hrest. congruence.
Qed.

Lemma contains_occurs needle haystack :
  contains needle haystack = true <-> occurs_in needle haystack.
Proof.
  induction haystack as [|c haystack IH].
  - cbn [contains]. rewrite orb_false_r, prefix_occurs. split.
    + intros [rest Hrest]. exists "", rest. exact Hrest.
    + intros (before & after & Heq). exists after.
      destruct before; [exact Heq | rewrite append_cons in Heq; discriminate].
  - cbn [contains]. rewrite orb_true_iff, prefix_occurs, IH. split.
    + intros [[rest Hrest] | (before & after & Heq)].
      * exists "", rest. exact Hrest.
      * exists (String c before), after. rewrite append_cons, Heq. reflexivity.
    + intros (before & after & Heq). destruct before as [|c' before].
      * left. exists after. exact Heq.
      * right. exists before, after. rewrite append_cons in Heq. congruence.
Qed.

Lemma is_throttling_str_occurs s :
  is_throttling_str s = true <->
  occurs_in "ThrottlingException" s \/ occurs_in "Too many requests" s.
Proof.
  unfold is_throttling_str. rewrite orb_true_iff, !contains_occurs. reflexivity.
Qed.

(** ** The sleeps of a run *)


(** ** The backoff curves (C4) *)



(** ** Classifying a fault (C5) *)









(** ** The terminal message (C6) *)

(** C6: when a run ends because call [max_retries + 1] raised the
    [Exception] [e], it returns [None] and a message chosen by the
    description of [e] alone: the fixed throttling text when the description
    contains "ThrottlingException" or "Too many requests", and otherwise
    "Unable to get a response from the agent after {max_retries} attempts.
    Error: {description}". *)
Theorem terminal_message_on_exhaustion rng agent question max_retries
    base_delay max_delay r w j e :
  invoke_agent rng agent question max_retries base_delay max_delay = Some (r, w) ->
  calls w = S j -> (Z.of_nat j = max_retries)%Z ->
  attempt_result (agent (prompt_template_invoke question) j) = inl e ->
  is_Exception e = true ->
  exists message,
    r = Returned None message /\
    (occurs_in "ThrottlingException" (exn_str e) \/
     occurs_in "Too many requests" (exn_str e) ->
     message = throttling_message) /\
    (~ (occurs_in "ThrottlingException" (exn_str e) \/
        occurs_in "Too many requests" (exn_str e)) ->
     message = "Unable to get a response from the agent after "
               ++ str_int max_retries ++ " attempts. Error: " ++ exn_str e).
Proof.
  intros Hrun Hc Hj Hatt Hexc. apply run_spec_of_run in Hrun as Hspec.
  destruct Hspec as [_ _ _ Hres]. rewrite Hc in Hres.
  destruct Hres as [_ Hlast]. unfold last_call_result in Hlast.
  rewrite Hatt, Hexc in Hlast.
  destruct (Z.gtb_spec (Z.of_nat (S j)) max_retries) as [_|Hle]; [|lia].
  subst r. unfold after_loop, error_message. simpl py_str.
  eexists. split; [reflexivity|].
  destruct (is_throttling_str (exn_str e)) eqn:Hthr.
  - split; [reflexivity|]. intros Hno. exfalso. apply Hno.
    apply is_throttling_str_occurs. exact Hthr.
  - split; [|reflexivity]. intros Hyes.
    apply is_throttling_str_occurs in Hyes. congruence.
Qed.

Lemma terminal_message_on_exhaustion_witness :
  (exists message,
     Returned None throttling_message = Returned None message /\
     (occurs_in "ThrottlingException" (exn_str throttling_fault) \/
      occurs_in "Too many requests" (exn_str throttling_fault) ->
      message = throttling_message) /\
     (~ (occurs_in "ThrottlingException" (exn_str throttling_fault) \/
         occurs_in "Too many requests" (exn_str throttling_fault)) ->
      message = "Unable to get a response from the agent after "
                ++ str_int 3 ++ " attempts. Error: " ++ exn_str throttling_fault)) /\
  (exists message,
     Returned None
       "Unable to get a response from the agent after 3 attempts. Error: boom" =
     Returned None message /\
     (occurs_in "ThrottlingException" (exn_str generic_fault) \/
      occurs_in "Too many requests" (exn_str generic_fault) ->
      message = throttling_message) /\
     (~ (occurs_in "ThrottlingException" (exn_str generic_fault) \/
         occurs_in "Too many requests" (exn_str generic_fault)) ->
      message = "Unable to get a response from the agent after "
                ++ str_int 3 ++ " attempts. Error: " ++ exn_str generic_fault)).
Proof.
  split.
  - eapply (terminal_message_on_exhaustion half always_throttled "q" 3 5 60 _ _ 3).
    + vm_compute. reflexivity.
    + reflexivity.
    + reflexivity.
    + reflexivity.
    + reflexivity.
  - eapply (terminal_message_on_exhaustion half always_failing "q" 3 5 60 _ _ 3).
    + vm_compute. reflexivity.
    + reflexivity.
    + reflexivity.
    + reflexivity.
    + reflexivity.
Defined.

(** ** Every fault is retried (C7) *)

Lemma same_pattern_sym agent1 agent2 question :
  same_pattern agent1 agent2 question -> same_pattern agent2 agent1 question.
Proof.
  intros H i. specialize (H i).
  destruct (attempt_result (agent1 _ i)), (attempt_result (agent2 _ i)); auto.
Qed.

(** With non-negative delays, a run is not shorter than the run of an agent
    failing at the same places. *)
Lemma no_fewer_calls rng1 rng2 agent1 agent2 question max_retries
    base_delay max_delay r1 w1 r2 w2 :
  (0 <= base_delay)%Q -> (0 <= max_delay)%Q -> (forall i, (0 <= rng1 i)%Q) ->
  raises_only_Exception agent1 question ->
  same_pattern agent1 agent2 question ->
  run_spec rng1 agent1 question max_retries base_delay max_delay r1 w1 ->
  run_spec rng2 agent2 question max_retries base_delay max_delay r2 w2 ->
  calls w2 <= calls w1.
Proof.
  intros Hb Hm Hu Hag Hpat Hs1 Hs2.
  destruct (le_lt_dec (calls w2) (calls w1)) as [Hle|Hlt]; [exact Hle|exfalso].
  pose proof Hs1 as [_ _ _ Hres1]. destruct Hs2 as [_ _ Hret2 Hres2].
  destruct (calls w1) as [|j1] eqn:Hc1.
  - destruct Hres1 as [Hneg _].
    destruct (calls w2) as [|j2]; [lia|]. destruct Hres2 as [Hj2 _]. lia.
  - destruct (Hret2 j1 Hlt) as (e2 & Hatt2 & _ & Hle2 & _).
    specialize (Hpat j1). rewrite Hatt2 in Hpat.
    destruct (attempt_result (agent1 (prompt_template_invoke question) j1))
      as [e1|out1] eqn:Hatt1; [|contradiction].
    assert (Hexc : is_Exception e1 = true).
    { eapply attempt_fault_catchable; [|exact Hatt1]. intros e'. apply Hag. }
    destruct (run_last_call _ _ _ _ _ _ _ _ _ _ Hb Hm Hu Hs1 Hc1 Hatt1 Hexc)
      as [Hover _]. lia.
Qed.

Lemma run_event_kinds rng1 rng2 agent1 agent2 question max_retries
    base_delay max_delay r1 w1 r2 w2 :
  run_spec rng1 agent1 question max_retries base_delay max_delay r1 w1 ->
  run_spec rng2 agent2 question max_retries base_delay max_delay r2 w2 ->
  calls w1 = calls w2 ->
  map event_kind (trace w1) = map event_kind (trace w2).
Proof.
  intros [_ Ht1 _ _] [_ Ht2 _ _] Hc. rewrite Ht1, Ht2, Hc.
  destruct (calls w2) as [|j]; [reflexivity|].
  rewrite !map_app. f_equal. apply event_kind_rounds.
Qed.

(** C7, as stated, fails: with a negative [max_delay] the fault of attempt 1
    is followed by no attempt although [max_retries = 1]; and with a
    negative [base_delay] a throttling fault is retried where another fault,
    with the same samples, is not. *)
Lemma fault_not_always_retried :
  invoke_agent half always_failing "q" 1 5 (-1) =
    Some (Escaped ValueError_sleep,
          {| handler := SQLHandler_init; calls := 1; draws := 1;
             trace := [EInvoke 0] |}) /\
  ~ fault_is_retried half always_failing "q" 1 5 (-1) /\
  invoke_agent three_quarters always_failing "q" 1 (-1) 10 =
    Some (Escaped ValueError_sleep,
          {| handler := SQLHandler_init; calls := 1; draws := 1;
             trace := [EInvoke 0] |}) /\
  invoke_agent three_quarters always_throttled "q" 1 (-1) 10 =
    Some (Returned None throttling_message,
          {| handler := SQLHandler_init; calls := 2; draws := 1;
             trace := [EInvoke 0; ESleep (2 # 4); EInvoke 1] |}).
Proof.
  assert (H1 : invoke_agent half always_failing "q" 1 5 (-1) =
    Some (Escaped ValueError_sleep,
          {| handler := SQLHandler_init; calls := 1; draws := 1;
             trace := [EInvoke 0] |})) by (vm_compute; reflexivity).
  split; [exact H1|]. split.
  - intros Hall. specialize (Hall _ _ 1 H1). simpl in Hall.
    assert (1 < 1); [|lia].
    apply Hall; try lia. apply always_failing_fails.
  - split; vm_compute; reflexivity.
Qed.

(** C7, amended: when [base_delay], [max_delay] and the samples are not
    negative, the configuration is in the range where CPython computes and
    sleeps the delays without [OverflowError] ([delays_in_range]), and the
    agent raises only [Exception]s, a fault on attempt [a]
    with [a <= max_retries] is followed by another attempt, whatever its
    kind; and two agents whose attempts fail at the same places, with
    whatever kinds of fault, are called the same number of times, in runs
    that differ only in the durations slept (and in the pair returned). *)
Theorem every_fault_is_retried rng1 rng2 agent1 agent2 question max_retries
    base_delay max_delay :
  (0 <= base_delay)%Q -> (0 <= max_delay)%Q ->
  (forall i, (0 <= rng1 i)%Q) -> (forall i, (0 <= rng2 i)%Q) ->
  delays_in_range max_retries base_delay max_delay ->
  raises_only_Exception agent1 question ->
  raises_only_Exception agent2 question ->
  same_pattern agent1 agent2 question ->
  fault_is_retried rng1 agent1 question max_retries base_delay max_delay /\
  exists r1 w1 r2 w2,
    invoke_agent rng1 agent1 question max_retries base_delay max_delay = Some (r1, w1) /\
    invoke_agent rng2 agent2 question max_retries base_delay max_delay = Some (r2, w2) /\
    count_invokes (trace w1) = count_invokes (trace w2) /\
    map event_kind (trace w1) = map event_kind (trace w2).
Proof.
  intros Hb Hm Hu1 Hu2 _ Hag1 Hag2 Hpat.
  destruct (invoke_agent_spec rng1 agent1 question max_retries base_delay max_delay)
    as (r1 & w1 & Hrun1 & Hs1).
  destruct (invoke_agent_spec rng2 agent2 question max_retries base_delay max_delay)
    as (r2 & w2 & Hrun2 & Hs2).
  split.
  - intros r w a Hrun Ha Hle Hmade (e & Hatt & Hexc).
    rewrite Hrun1 in Hrun. injection Hrun as <- <-.
    rewrite (run_count_invokes _ _ _ _ _ _ _ _ Hs1) in *.
    destruct (Nat.eq_dec (calls w1) a) as [Heq|Hne]; [exfalso|lia].
    assert (Hc : calls w1 = S (a - 1)) by lia.
    destruct (run_last_call _ _ _ _ _ _ _ _ _ _ Hb Hm Hu1 Hs1 Hc Hatt Hexc)
      as [Hover _]. lia.
  - exists r1, w1, r2, w2. split; [exact Hrun1|]. split; [exact Hrun2|].
    assert (Hc : calls w1 = calls w2).
    { apply Nat.le_antisymm.
      - apply (no_fewer_calls rng2 rng1 agent2 agent1 question max_retries
                 base_delay max_delay r2 w2 r1 w1); auto using same_pattern_sym.
      - apply (no_fewer_calls rng1 rng2 agent1 agent2 question max_retries
                 base_delay max_delay r1 w1 r2 w2); auto. }
    rewrite (run_count_invokes _ _ _ _ _ _ _ _ Hs1).
    rewrite (run_count_invokes _ _ _ _ _ _ _ _ Hs2).
    split; [exact Hc|]. eapply run_event_kinds; eauto.
Qed.

Lemma always_scripted_pattern e1 e2 question :
  same_pattern (scripted [] (mk_outcome [] (Raise e1)))
               (scripted [] (mk_outcome [] (Raise e2))) question.
Proof. intros i. unfold scripted. destruct i; exact I. Qed.

Lemma every_fault_is_retried_witness :
  fault_is_retried half always_failing "q" 2 5 60 /\
  exists r1 w1 r2 w2,
    invoke_agent half always_failing "q" 2 5 60 = Some (r1, w1) /\
    invoke_agent quarter always_throttled "q" 2 5 60 = Some (r2, w2) /\
    count_invokes (trace w1) = count_invokes (trace w2) /\
    map event_kind (trace w1) = map event_kind (trace w2).
Proof.
  apply (every_fault_is_retried half quarter always_failing always_throttled
           "q" 2 5 60).
  - discriminate.
  - discriminate.
  - intros i. discriminate.
  - intros i. discriminate.
  - repeat split; vm_compute; discriminate.
  - apply scripted_raises_only_Exception.
    repeat constructor; simpl; intros e [=]; subst; reflexivity.
  - apply scripted_raises_only_Exception.
    repeat constructor; simpl; intros e [=]; subst; reflexivity.
  - apply always_scripted_pattern.
Defined.

(** ** The shared handler (C8) *)

Lemma on_agent_action_captured h a :
  sql_query (on_agent_action h a) =
  match captured a with
  | Some q => Some q
  | None => sql_query h
  end.
Proof.
  unfold on_agent_action, captured.
  destruct (String.eqb (tool a) "sql_db_query"); reflexivity.
Qed.

(** Feeding actions to the handler leaves the last query among them, or
    what the handler held before when there is none. *)
Lemma fold_on_agent_action acts : forall h,
  sql_query (fold_left on_agent_action acts h) =
  match most_recent_sql acts with
  | Some q => Some q
  | None => sql_query h
  end.
Proof.
  unfold most_recent_sql.
  induction acts as [|a acts IH] using rev_ind; intros h; [reflexivity|].
  rewrite fold_left_app, omap_app, last_app. simpl.
  rewrite on_agent_action_captured.
  destruct (captured a) as [q|]; simpl; [reflexivity|]. apply IH.
Qed.

Lemma all_actions_S agent question n :
  all_actions agent question (S n) =
  (all_actions agent question n
   ++ actions (agent (prompt_template_invoke question) n))%list.
Proof.
  unfold all_actions. rewrite seq_S, map_app, concat_app. simpl.
  rewrite app_nil_r. reflexivity.
Qed.

(** C8: in any run, the handler at the end is the one created before the
    loop after receiving the actions of every attempt in order, never
    reset; its query is the most recent one reported over all attempts; a
    successful last attempt returns that query, and when that attempt
    reported none itself, this is the most recent query of the earlier,
    failed attempts. *)
Theorem artifact_is_most_recent rng agent question max_retries base_delay
    max_delay r w :
  invoke_agent rng agent question max_retries base_delay max_delay = Some (r, w) ->
  handler w = fold_left on_agent_action
                (all_actions agent question (calls w)) SQLHandler_init /\
  sql_query (handler w) = most_recent_sql (all_actions agent question (calls w)) /\
  forall j output,
    calls w = S j ->
    attempt_succeeds agent question j output ->
    r = Returned (most_recent_sql (all_actions agent question (S j))) output /\
    (most_recent_sql (actions (agent (prompt_template_invoke question) j)) = None ->
     r = Returned (most_recent_sql (all_actions agent question j)) output /\
     forall i, i < j -> attempt_fails agent question i).
Proof.
  intros Hrun. apply run_spec_of_run in Hrun as Hspec.
  destruct Hspec as [Hh _ Hret Hres].
  assert (Hq : sql_query (handler w) =
               most_recent_sql (all_actions agent question (calls w))).
  { rewrite Hh. unfold handler_after. rewrite fold_on_agent_action.
    destruct (most_recent_sql _); reflexivity. }
  split; [exact Hh|]. split; [exact Hq|].
  intros j output Hc Hok. rewrite Hc in Hres, Hq, Hret.
  destruct Hres as [_ Hlast]. unfold last_call_result in Hlast.
  unfold attempt_succeeds in Hok. rewrite Hok, Hq in Hlast.
  split; [exact Hlast|]. intros Hnone. split.
  - rewrite Hlast. f_equal. rewrite all_actions_S.
    unfold most_recent_sql in *. rewrite omap_app, last_app, Hnone. reflexivity.
  - intros i Hi. destruct (Hret i) as (e & Hatt & Hexc & _); [lia|].
    exists e. auto.
Qed.

Lemma artifact_is_most_recent_witness :
  exists w,
    invoke_agent half fail_then_answer "q" 5 5 60 =
      Some (Returned (Some "SELECT 1") "42", w) /\
    attempt_succeeds fail_then_answer "q" 1 "42" /\
    actions (fail_then_answer (prompt_template_invoke "q") 1) = [] /\
    Returned (Some "SELECT 1") "42" =
      Returned (most_recent_sql (all_actions fail_then_answer "q" 1)) "42" /\
    forall i, i < 1 -> attempt_fails fail_then_answer "q" i.
Proof.
  eexists. split; [vm_compute; reflexivity|].
  split; [reflexivity|]. split; [reflexivity|].
  eapply (artifact_is_most_recent half fail_then_answer "q" 5 5 60).
  - vm_compute. reflexivity.
  - reflexivity.
  - reflexivity.
  - reflexivity.
Defined.

(** ** Degenerate retry limits (C9) *)



(** ** Jitter and the result (C10) *)





(** * Further properties of [invoke_agent] and [SQLHandler] *)

Lemma sum_le_length_times (l : list Q) (b : Q) :
  Forall (fun d => (d <= b)%Q) l ->
  (fold_right Qplus 0 l <= inject_Z (Z.of_nat (length l)) * b)%Q.
Proof.
  induction 1 as [|d l Hd _ IH]; simpl fold_right; simpl length.
  - change (inject_Z (Z.of_nat 0)) with 0%Q. rewrite Qmult_0_l. apply Qle_refl.
  - rewrite Nat2Z.inj_succ, <- Z.add_1_r, inject_Z_plus.
    change (inject_Z 1) with 1%Q. nra.
Qed.

Lemma event_kind_rounds_alt rng agent question base_delay max_delay n :
  map event_kind (trace_rounds rng agent question base_delay max_delay n) =
  flat_map (fun i => [Some i; None]) (seq 0 n).
Proof.
  induction n as [|n IH]; [reflexivity|].
  rewrite trace_rounds_S, map_app, IH, seq_S, flat_map_app. reflexivity.
Qed.

(** The sleeps of a run were accepted by [time.sleep] and are capped. *)
Lemma run_sleeps_bounds rng agent question max_retries base_delay max_delay r w :
  run_spec rng agent question max_retries base_delay max_delay r w ->
  Forall (fun d => (0 <= d)%Q /\ (d <= max_delay)%Q) (sleeps (trace w)).
Proof.
  intros Hspec. rewrite (run_sleeps _ _ _ _ _ _ _ _ Hspec).
  apply Forall_forall. intros d Hd. apply list_elem_of_In in Hd.
  apply in_map_iff in Hd as (i & <- & Hi). apply in_seq in Hi.
  destruct Hspec as [_ _ Hret _].
  destruct (Hret i) as (e & Hatt & _ & _ & Hacc); [lia|].
  unfold sleep_of. rewrite Hatt. split.
  - apply Qle_bool_iff. exact Hacc.
  - apply delay_value_le_max.
Qed.

(** X1: Bounded effort: whatever the agent, the configuration and the samples,
    [invoke_agent] comes to an end after at most [max_retries + 1] calls of
    the agent and [max_retries] sleeps; every sleep lasts between 0 and
    [max_delay], so the time slept is at most the number of sleeps times
    [max_delay]. *)
Theorem bounded_effort rng agent question max_retries base_delay max_delay :
  exists r w,
    invoke_agent rng agent question max_retries base_delay max_delay = Some (r, w) /\
    (Z.of_nat (count_invokes (trace w)) <= Z.max 0 (max_retries + 1))%Z /\
    (Z.of_nat (length (sleeps (trace w))) <= Z.max 0 max_retries)%Z /\
    Forall (fun d => (0 <= d)%Q /\ (d <= max_delay)%Q) (sleeps (trace w)) /\
    (total_sleep (trace w)
     <= inject_Z (Z.of_nat (length (sleeps (trace w)))) * max_delay)%Q.
Proof.
  destruct (invoke_agent_spec rng agent question max_retries base_delay max_delay)
    as (r & w & Hrun & Hspec).
  exists r, w. split; [exact Hrun|].
  pose proof (run_sleeps_bounds _ _ _ _ _ _ _ _ Hspec) as Hbounds.
  assert (Hcalls : (Z.of_nat (calls w) <= Z.max 0 (max_retries + 1))%Z).
  { destruct Hspec as [_ _ _ Hres]. destruct (calls w); [lia|].
    destruct Hres as [Hj _]. lia. }
  rewrite (run_count_invokes _ _ _ _ _ _ _ _ Hspec).
  split; [exact Hcalls|]. split.
  - rewrite (run_sleeps _ _ _ _ _ _ _ _ Hspec), length_map, length_seq. lia.
  - split; [exact Hbounds|]. apply sum_le_length_times.
    eapply Forall_impl; [exact Hbounds|]. intros d [_ Hd]. exact Hd.
Qed.

(** X2: The shape of every run: calls of the agent and sleeps alternate, the
    first and the last event are calls. [invoke_agent] never sleeps before
    the first attempt, twice in a row, or after the last attempt. *)
Theorem trace_alternates rng agent question max_retries base_delay max_delay :
  exists r w,
    invoke_agent rng agent question max_retries base_delay max_delay = Some (r, w) /\
    map event_kind (trace w) = alternation (count_invokes (trace w)).
Proof.
  destruct (invoke_agent_spec rng agent question max_retries base_delay max_delay)
    as (r & w & Hrun & Hspec).
  exists r, w. split; [exact Hrun|].
  rewrite (run_count_invokes _ _ _ _ _ _ _ _ Hspec).
  destruct Hspec as [_ Htr _ _]. rewrite Htr.
  destruct (calls w) as [|j]; [reflexivity|].
  unfold alternation. rewrite map_app, event_kind_rounds_alt. reflexivity.
Qed.




Lemma pow_inject_le (a b : Z) (n : Z) :
  (0 <= a <= b)%Z -> (0 <= inject_Z (a ^ n) <= inject_Z (b ^ n))%Q.
Proof.
  intros Hab. change 0%Q with (inject_Z 0). rewrite <- !Zle_Qle.
  split.
  - destruct (Z.le_gt_cases 0 n); [apply Z.pow_nonneg; lia|].
    rewrite Z.pow_neg_r; lia.
  - apply Z.pow_le_mono_l. exact Hab.
Qed.

(** X4: The throttling curve is the more patient one: for a non-negative
    [base_delay] and sample, after the same attempt and with the same
    sample, a throttling fault is followed by a delay at least as long as
    the one that follows any other fault. *)
Theorem throttling_backs_off_longer rng base_delay max_delay attempt e_thr e_std w :
  (0 <= base_delay)%Q -> (0 <= rng (draws w))%Q ->
  is_throttling_str (exn_str e_thr) = true ->
  is_throttling_str (exn_str e_std) = false ->
  (fst (backoff_delay rng base_delay max_delay attempt e_std w)
   <= fst (backoff_delay rng base_delay max_delay attempt e_thr w))%Q.
Proof.
  intros Hb Hu Hthr Hstd. rewrite !backoff_delay_eq. simpl fst.
  unfold delay_value. rewrite Hthr, Hstd.
  apply Q.min_le_compat_r. unfold jitter_of.
  pose proof (pow_inject_le 2 4 (Z.of_nat attempt - 1)) as [H2 H24]; [lia|].
  set (x := inject_Z (2 ^ (Z.of_nat attempt - 1))) in *.
  set (y := inject_Z (4 ^ (Z.of_nat attempt - 1))) in *.
  set (u := rng (draws w)) in *. nra.
Qed.

Lemma throttling_backs_off_longer_witness :
  (fst (backoff_delay half 5 60 2 generic_fault world_init)
   <= fst (backoff_delay half 5 60 2 throttling_fault world_init))%Q.
Proof.
  apply (throttling_backs_off_longer half 5 60 2 throttling_fault generic_fault
           world_init).
  - discriminate.
  - discriminate.
  - reflexivity.
  - reflexivity.
Defined.

(** X5: Backoff grows: for a non-negative [base_delay], the same fault and
    the same sample, a later attempt is followed by a delay at least as
    long as an earlier one. *)
Theorem backoff_grows_with_attempt rng base_delay max_delay attempt attempt' e w :
  (0 <= base_delay)%Q -> 1 <= attempt -> attempt <= attempt' ->
  (fst (backoff_delay rng base_delay max_delay attempt e w)
   <= fst (backoff_delay rng base_delay max_delay attempt' e w))%Q.
Proof.
  intros Hb Ha Hle. rewrite !backoff_delay_eq. simpl fst. unfold delay_value.
  assert (Hpow : forall k, (0 < k)%Z ->
            (inject_Z (k ^ (Z.of_nat attempt - 1))
             <= inject_Z (k ^ (Z.of_nat attempt' - 1)))%Q).
  { intros k Hk. rewrite <- Zle_Qle. apply Z.pow_le_mono_r; lia. }
  destruct (is_throttling_str (exn_str e)); apply Q.min_le_compat_r.
  - specialize (Hpow 4%Z eq_refl).
    set (x := inject_Z (4 ^ (Z.of_nat attempt - 1))) in *.
    set (y := inject_Z (4 ^ (Z.of_nat attempt' - 1))) in *.
    set (j := jitter_of 2 (rng (draws w))). nra.
  - specialize (Hpow 2%Z eq_refl).
    set (x := inject_Z (2 ^ (Z.of_nat attempt - 1))) in *.
    set (y := inject_Z (2 ^ (Z.of_nat attempt' - 1))) in *.
    set (j := jitter_of 1 (rng (draws w))). nra.
Qed.

Lemma backoff_grows_with_attempt_witness :
  (fst (backoff_delay half 5 60 1 throttling_fault world_init)
   <= fst (backoff_delay half 5 60 3 throttling_fault world_init))%Q.
Proof.
  apply (backoff_grows_with_attempt half 5 60 1 3 throttling_fault world_init).
  - discriminate.
  - lia.
  - lia.
Defined.

(** When no sleep can be rejected, a run is the ideal one. *)
Lemma nonneg_run_is_ideal rng agent question max_retries base_delay max_delay r w :
  (0 <= base_delay)%Q -> (0 <= max_delay)%Q -> (forall i, (0 <= rng i)%Q) ->
  run_spec rng agent question max_retries base_delay max_delay r w ->
  ideal_run agent question max_retries r (calls w).
Proof.
  intros Hb Hm Hu [Hh _ Hret Hres]. unfold ideal_run.
  destruct (calls w) as [|j] eqn:Hc; [exact Hres|].
  destruct Hres as [Hj Hlast]. split; [exact Hj|]. split.
  - intros i Hi. destruct (Hret i) as (e & Hatt & Hexc & _); [lia|].
    exists e. auto.
  - unfold last_call_result in Hlast.
    destruct (attempt_result (agent (prompt_template_invoke question) j)) as [e|out].
    + destruct (is_Exception e); [|exact Hlast].
      destruct (Z.gtb_spec (Z.of_nat (S j)) max_retries) as [Hgt|Hle].
      * split; [lia | exact Hlast].
      * destruct Hlast as [Hneg _].
        rewrite delay_value_nonneg in Hneg by auto. discriminate.
    + rewrite Hh in Hlast. exact Hlast.
Qed.

Lemma ideal_run_not_shorter agent question max_retries r1 n1 r2 n2 :
  ideal_run agent question max_retries r1 n1 ->
  ideal_run agent question max_retries r2 n2 ->
  n2 <= n1.
Proof.
  intros H1 H2.
  destruct (le_lt_dec n2 n1) as [Hle|Hlt]; [exact Hle|exfalso].
  destruct n2 as [|j2]; [lia|]. destruct H2 as (Hj2 & Hfail2 & _).
  destruct n1 as [|j1]; [destruct H1; lia|]. destruct H1 as (_ & _ & Hlast).
  destruct (Hfail2 j1) as (e & Hatt & Hexc); [lia|].
  rewrite Hatt, Hexc in Hlast. destruct Hlast as [Hover _]. lia.
Qed.

Lemma ideal_run_unique agent question max_retries r1 n1 r2 n2 :
  ideal_run agent question max_retries r1 n1 ->
  ideal_run agent question max_retries r2 n2 ->
  n1 = n2 /\ r1 = r2.
Proof.
  intros H1 H2.
  assert (Hn : n1 = n2).
  { apply Nat.le_antisymm; eapply ideal_run_not_shorter; eauto. }
  split; [exact Hn|]. subst n2.
  destruct n1 as [|j]; [destruct H1 as [_ ->], H2 as [_ ->]; reflexivity|].
  destruct H1 as (_ & _ & H1), H2 as (_ & _ & H2).
  destruct (attempt_result (agent (prompt_template_invoke question) j)) as [e|out].
  - destruct (is_Exception e); [destruct H1 as [_ ->], H2 as [_ ->]|]; congruence.
  - congruence.
Qed.

(** X6: The delay settings change the waiting, not the outcome: with the same
    agent, question and [max_retries], any two settings of [base_delay] and
    [max_delay] and any two streams of samples, none negative and both
    settings in the range where CPython computes and sleeps the delays
    without [OverflowError] ([delays_in_range]), lead to the same result after the same number of calls, with the handler in the
    same state. *)
Theorem delays_do_not_change_result rng1 rng2 agent question max_retries
    base_delay1 max_delay1 base_delay2 max_delay2 :
  (0 <= base_delay1)%Q -> (0 <= max_delay1)%Q -> (forall i, (0 <= rng1 i)%Q) ->
  (0 <= base_delay2)%Q -> (0 <= max_delay2)%Q -> (forall i, (0 <= rng2 i)%Q) ->
  delays_in_range max_retries base_delay1 max_delay1 ->
  delays_in_range max_retries base_delay2 max_delay2 ->
  exists r w1 w2,
    invoke_agent rng1 agent question max_retries base_delay1 max_delay1 = Some (r, w1) /\
    invoke_agent rng2 agent question max_retries base_delay2 max_delay2 = Some (r, w2) /\
    count_invokes (trace w1) = count_invokes (trace w2) /\
    handler w1 = handler w2.
Proof.
  intros Hb1 Hm1 Hu1 Hb2 Hm2 Hu2 _ _.
  destruct (invoke_agent_spec rng1 agent question max_retries base_delay1 max_delay1)
    as (r1 & w1 & Hrun1 & Hs1).
  destruct (invoke_agent_spec rng2 agent question max_retries base_delay2 max_delay2)
    as (r2 & w2 & Hrun2 & Hs2).
  pose proof (nonneg_run_is_ideal _ _ _ _ _ _ _ _ Hb1 Hm1 Hu1 Hs1) as Hi1.
  pose proof (nonneg_run_is_ideal _ _ _ _ _ _ _ _ Hb2 Hm2 Hu2 Hs2) as Hi2.
  destruct (ideal_run_unique _ _ _ _ _ _ _ Hi1 Hi2) as [Hc <-].
  exists r1, w1, w2. split; [exact Hrun1|]. split; [exact Hrun2|].
  rewrite (run_count_invokes _ _ _ _ _ _ _ _ Hs1).
  rewrite (run_count_invokes _ _ _ _ _ _ _ _ Hs2).
  split; [exact Hc|].
  destruct Hs1 as [-> _ _ _], Hs2 as [-> _ _ _]. rewrite Hc. reflexivity.
Qed.

Lemma delays_do_not_change_result_witness :
  exists r w1 w2,
    invoke_agent half fail_then_answer "q" 5 5 60 = Some (r, w1) /\
    invoke_agent quarter fail_then_answer "q" 5 0 1 = Some (r, w2) /\
    count_invokes (trace w1) = count_invokes (trace w2) /\
    handler w1 = handler w2.
Proof.
  apply (delays_do_not_change_result half quarter fail_then_answer "q" 5 5 60 0 1).
  - discriminate.
  - discriminate.
  - intros i. discriminate.
  - discriminate.
  - discriminate.
  - intros i. discriminate.
  - repeat split; vm_compute; discriminate.
  - repeat split; vm_compute; discriminate.
Defined.

(** X7: A response without the key [output] is a failed attempt like any other:
    with [max_retries >= 0], non-negative delays and a configuration in the
    range where CPython computes and sleeps the delays without
    [OverflowError] ([delays_in_range]), an agent whose responses all lack the key is called [max_retries + 1] times, and the
    message returned reports the [KeyError], "Error: 'output'". *)
Theorem missing_output_is_retried rng agent question max_retries base_delay
    max_delay :
  (0 <= max_retries)%Z ->
  (0 <= base_delay)%Q -> (0 <= max_delay)%Q -> (forall i, (0 <= rng i)%Q) ->
  delays_in_range max_retries base_delay max_delay ->
  (forall i, exists response,
     ending_of (agent (prompt_template_invoke question) i) = Return response /\
     response !! "output" = None) ->
  exists w,
    invoke_agent rng agent question max_retries base_delay max_delay =
      Some (Returned None
              ("Unable to get a response from the agent after "
               ++ str_int max_retries ++ " attempts. Error: 'output'"), w) /\
    Z.of_nat (count_invokes (trace w)) = (max_retries + 1)%Z.
Proof.
  intros Hmr Hb Hm Hu _ Hmissing.
  destruct (invoke_agent_spec rng agent question max_retries base_delay max_delay)
    as (r & w & Hrun & Hspec).
  pose proof (nonneg_run_is_ideal _ _ _ _ _ _ _ _ Hb Hm Hu Hspec) as Hideal.
  pose proof (run_count_invokes _ _ _ _ _ _ _ _ Hspec) as Hcount.
  destruct (calls w) as [|j]; [destruct Hideal; lia|].
  destruct Hideal as (Hj & _ & Hlast).
  destruct (Hmissing j) as (response & Hend & Hnone).
  unfold attempt_result, getitem_output in Hlast. rewrite Hend, Hnone in Hlast.
  simpl in Hlast. destruct Hlast as [Hover ->].
  exists w. split; [exact Hrun | rewrite Hcount; lia].
Qed.

Lemma missing_output_is_retried_witness :
  exists w,
    invoke_agent half without_output "q" 2 5 60 =
      Some (Returned None
              ("Unable to get a response from the agent after "
               ++ str_int 2 ++ " attempts. Error: 'output'"), w) /\
    Z.of_nat (count_invokes (trace w)) = (2 + 1)%Z.
Proof.
  apply (missing_output_is_retried half without_output "q" 2 5 60).
  - lia.
  - discriminate.
  - discriminate.
  - intros i. discriminate.
  - repeat split; vm_compute; discriminate.
  - intros i. exists {[ "answer" := "42" ]}.
    unfold without_output, scripted. destruct i; split; reflexivity.
Defined.

Lemma fold_ignores_other_tools acts : forall h,
  Forall (fun b => tool b <> "sql_db_query") acts ->
  fold_left on_agent_action acts h = h.
Proof.
  induction acts as [|b acts IH]; intros h Hall; [reflexivity|].
  apply Forall_cons in Hall as [Hb Hacts]. simpl.
  unfold on_agent_action at 2.
  destruct (String.eqb_spec (tool b) "sql_db_query") as [Heq|_]; [contradiction|].
  apply IH. exact Hacts.
Qed.

(** X8: The handler keeps the last query and nothing else: actions of other
    tools leave it as it is, and after any sequence of actions its query is
    the input of the last [sql_db_query] action, whatever it held before. *)
Theorem handler_keeps_last_query h before a after :
  tool a = "sql_db_query" ->
  Forall (fun b => tool b <> "sql_db_query") after ->
  fold_left on_agent_action (before ++ a :: after) h =
    {| sql_query := Some (tool_input a) |} /\
  fold_left on_agent_action after h = h.
Proof.
  intros Ha Hafter. split; [|apply fold_ignores_other_tools; exact Hafter].
  rewrite fold_left_app. simpl. unfold on_agent_action at 2.
  rewrite Ha. simpl. apply fold_ignores_other_tools. exact Hafter.
Qed.

Lemma handler_keeps_last_query_witness :
  fold_left on_agent_action
    ([mk_action "sql_db_query" "SELECT 0"; mk_action "sql_db_schema" "t"]
     ++ select_action :: [mk_action "sql_db_query_checker" "SELECT 2"])
    SQLHandler_init =
    {| sql_query := Some (tool_input select_action) |} /\
  fold_left on_agent_action [mk_action "sql_db_query_checker" "SELECT 2"]
    SQLHandler_init = SQLHandler_init.
Proof.
  apply (handler_keeps_last_query SQLHandler_init
           [mk_action "sql_db_query" "SELECT 0"; mk_action "sql_db_schema" "t"]
           select_action [mk_action "sql_db_query_checker" "SELECT 2"]).
  - reflexivity.
  - repeat constructor. discriminate.
Defined.

(** * Properties of the table filter *)

Lemma filter_occurrences (table : string) (desired_tables all_tables : list string) :
  table ∈ desired_tables ->
  filter (fun x => x = table) (filter (fun x => x ∈ desired_tables) all_tables) =
  filter (fun x => x = table) all_tables.
Proof.
  intros Hin. induction all_tables as [|x l IH]; [reflexivity|].
  rewrite (filter_cons (fun x => x ∈ desired_tables)).
  rewrite (filter_cons (fun x => x = table) x l).
  destruct (decide (x = table)) as [->|Hne].
  - destruct (decide (table ∈ desired_tables)) as [_|Hno]; [|contradiction].
    rewrite filter_cons. destruct (decide (table = table)); [|congruence].
    f_equal. exact IH.
  - destruct (decide (x ∈ desired_tables)); [|exact IH].
    rewrite filter_cons. destruct (decide (x = table)); [contradiction|].
    exact IH.
Qed.

(** X9: [get_filtered_tables] returns exactly the usable tables of the database
    that are among the desired ones, in the database's order and with the
    database's repetitions: a desired table occurs in the result as many
    times as the database lists it, a desired table the database lacks is
    dropped without an error, and the order of [desired_tables] plays no
    part. *)
Theorem filtered_tables_spec db desired_tables :
  (forall table,
     table ∈ get_filtered_tables db desired_tables <->
     table ∈ get_usable_table_names db /\ table ∈ desired_tables) /\
  get_filtered_tables db desired_tables `sublist_of` get_usable_table_names db /\
  length (get_filtered_tables db desired_tables)
    <= length (get_usable_table_names db) /\
  (forall table,
     table ∈ desired_tables ->
     filter (fun x => x = table) (get_filtered_tables db desired_tables) =
     filter (fun x => x = table) (get_usable_table_names db)).
Proof.
  unfold get_filtered_tables. split; [|split; [|split]].
  - intros table. rewrite list_elem_of_filter. tauto.
  - apply sublist_filter.
  - apply length_filter.
  - intros table Hin. apply filter_occurrences. exact Hin.
Qed.

Lemma filtered_tables_spec_witness :
  get_filtered_tables (mk_db ["t"; "u"; "t"]) ["t"] = ["t"; "t"] /\
  filter (fun x => x = "t") (get_filtered_tables (mk_db ["t"; "u"; "t"]) ["t"]) =
  filter (fun x => x = "t") ["t"; "u"; "t"].
Proof.
  split; [vm_compute; reflexivity|].
  apply (filtered_tables_spec (mk_db ["t"; "u"; "t"]) ["t"]).
  apply list_elem_of_here.
Defined.

(** X10: Only the set of desired tables matters: two lists of desired tables with
    the same members, in any order and with any repetitions, select the same
    tables. *)
Theorem desired_tables_as_set db desired1 desired2 :
  (forall table, table ∈ desired1 <-> table ∈ desired2) ->
  get_filtered_tables db desired1 = get_filtered_tables db desired2.
Proof.
  intros Hsame. unfold get_filtered_tables. apply list_filter_iff. exact Hsame.
Qed.

Lemma desired_tables_as_set_witness :
  get_filtered_tables (mk_db ["orders"; "retail_transactions"; "users"])
                      ["users"; "retail_transactions"] =
  get_filtered_tables (mk_db ["orders"; "retail_transactions"; "users"])
                      ["retail_transactions"; "users"; "users"].
Proof.
  apply (desired_tables_as_set (mk_db ["orders"; "retail_transactions"; "users"])
           ["users"; "retail_transactions"]
           ["retail_transactions"; "users"; "users"]).
  intros table. rewrite !elem_of_cons, !elem_of_nil. tauto.
Defined.

(** X11: Filtering composes: the database class that exposes the filtered tables,
    filtered again with any list that contains the desired tables, yields
    the same tables. *)
Theorem filtering_again_changes_nothing db desired_tables desired_tables' :
  (forall table, table ∈ desired_tables -> table ∈ desired_tables') ->
  get_filtered_tables
    (FilteredSQLDatabase (get_filtered_tables db desired_tables))
    desired_tables' =
  get_filtered_tables db desired_tables.
Proof.
  intros Hsub. unfold get_filtered_tables, FilteredSQLDatabase. simpl.
  apply list_filter_filter_r. exact Hsub.
Qed.

Lemma filtering_again_changes_nothing_witness :
  get_filtered_tables
    (FilteredSQLDatabase
       (get_filtered_tables (mk_db ["orders"; "retail_transactions"])
                            ["retail_transactions"]))
    ["retail_transactions"] =
  get_filtered_tables (mk_db ["orders"; "retail_transactions"])
                      ["retail_transactions"].
Proof.
  apply (filtering_again_changes_nothing (mk_db ["orders"; "retail_transactions"])
           ["retail_transactions"] ["retail_transactions"]).
  intros table Ht. exact Ht.
Defined.

(** * Properties of the request builders *)

(** X12: [retrieve_and_generate_with_filter] always sends the key [filter], also
    when the filter is [None]; [retrieve_and_generate_without_filter] never
    does; apart from that key the two requests are the same, and each
    function calls the client once and returns what the client returns. *)
Theorem with_filter_sends_filter_key client query knowledge_base_id model_arn
    metadata_filter :
  exists request request0,
    retrieve_and_generate_with_filter client query knowledge_base_id model_arn
      metadata_filter = (client request, [request]) /\
    retrieve_and_generate_without_filter client query knowledge_base_id model_arn
      = (client request0, [request0]) /\
    get_path (vector_search_path ++ ["filter"]) request = Some metadata_filter /\
    get_path (vector_search_path ++ ["filter"]) request0 = None /\
    del_path vector_search_path "filter" request = request0.
Proof.
  eexists _, _. split; [reflexivity|]. split; [reflexivity|].
  split; [reflexivity|]. split; reflexivity.
Qed.

(** X13: The guardrail identifier is demanded first: with [use_guardrails] true
    and a [guardrail_id] that is [None] or empty, the function raises
    [ValueError] and sends nothing to the client; in every other case it
    sends exactly one request and returns what the client returns. *)
Theorem guardrail_id_required client query knowledge_base_id model_arn
    metadata_filter use_guardrails guardrail_id guardrail_version :
  (truthy use_guardrails = true -> truthy guardrail_id = false ->
   retrieve_and_generate_with_conditional_guardrails client query
     knowledge_base_id model_arn metadata_filter use_guardrails guardrail_id
     guardrail_version = (inl ValueError_guardrail_id, [])) /\
  (~ (truthy use_guardrails = true /\ truthy guardrail_id = false) ->
   exists request,
     retrieve_and_generate_with_conditional_guardrails client query
       knowledge_base_id model_arn metadata_filter use_guardrails guardrail_id
       guardrail_version = (client request, [request]) /\
     get_path ["input"; "text"] request = Some query).
Proof.
  unfold retrieve_and_generate_with_conditional_guardrails, build_kb_config.
  split.
  - intros Huse Hid. rewrite Huse, Hid.
    destruct (truthy metadata_filter); reflexivity.
  - intros Hok.
    destruct (truthy use_guardrails), (truthy guardrail_id);
      try (exfalso; apply Hok; split; reflexivity);
      destruct (truthy metadata_filter), (truthy guardrail_version);
      eexists; split; reflexivity.
Qed.

Lemma guardrail_id_required_witness :
  retrieve_and_generate_with_conditional_guardrails echo_client (PStr "q")
    (PStr "kb") (PStr "arn") year_filter (PBool true) (PStr "") (PStr "1")
  = (inl ValueError_guardrail_id, []) /\
  exists request,
    retrieve_and_generate_with_conditional_guardrails echo_client (PStr "q")
      (PStr "kb") (PStr "arn") year_filter (PBool true) (PStr "g1") (PStr "1")
    = (echo_client request, [request]) /\
    get_path ["input"; "text"] request = Some (PStr "q").
Proof.
  split.
  - apply (guardrail_id_required echo_client (PStr "q") (PStr "kb") (PStr "arn")
             year_filter (PBool true) (PStr "") (PStr "1")); reflexivity.
  - apply (guardrail_id_required echo_client (PStr "q") (PStr "kb") (PStr "arn")
             year_filter (PBool true) (PStr "g1") (PStr "1")).
    intros [_ Habs]. discriminate.
Defined.

(** X14: A filter that tests false is dropped: whenever the function reaches the
    client, the request carries the key [filter] exactly when
    [metadata_filter] is truthy, so an empty dict is left out like [None];
    the request always asks for 5 results and carries the prompt template. *)
Theorem falsy_filter_is_dropped client query knowledge_base_id model_arn
    metadata_filter use_guardrails guardrail_id guardrail_version :
  ~ (truthy use_guardrails = true /\ truthy guardrail_id = false) ->
  exists request,
    retrieve_and_generate_with_conditional_guardrails client query
      knowledge_base_id model_arn metadata_filter use_guardrails guardrail_id
      guardrail_version = (client request, [request]) /\
    get_path (vector_search_path ++ ["filter"]) request =
      (if truthy metadata_filter then Some metadata_filter else None) /\
    get_path (vector_search_path ++ ["numberOfResults"]) request = Some (PInt 5) /\
    get_path (generation_path ++ ["promptTemplate"; "textPromptTemplate"]) request
      = Some (PStr text_prompt_template).
Proof.
  unfold retrieve_and_generate_with_conditional_guardrails, build_kb_config.
  intros Hok.
  destruct (truthy use_guardrails), (truthy guardrail_id);
    try (exfalso; apply Hok; split; reflexivity);
    destruct (truthy metadata_filter), (truthy guardrail_version);
    eexists; repeat split; reflexivity.
Qed.

Lemma falsy_filter_is_dropped_witness :
  exists request,
    retrieve_and_generate_with_conditional_guardrails echo_client (PStr "q")
      (PStr "kb") (PStr "arn") (PDict ∅) (PBool false) PNone PNone
    = (echo_client request, [request]) /\
    get_path (vector_search_path ++ ["filter"]) request =
      (if truthy (PDict ∅) then Some (PDict ∅) else None) /\
    get_path (vector_search_path ++ ["numberOfResults"]) request = Some (PInt 5) /\
    get_path (generation_path ++ ["promptTemplate"; "textPromptTemplate"]) request
      = Some (PStr text_prompt_template).
Proof.
  apply (falsy_filter_is_dropped echo_client (PStr "q") (PStr "kb") (PStr "arn")
           (PDict ∅) (PBool false) PNone PNone).
  intros [Habs _]. discriminate.
Defined.

(** X15: With [use_guardrails] false the guardrail arguments are ignored: the
    request has no [guardrailConfiguration], and the call behaves as if
    [guardrail_id] and [guardrail_version] were [None], whatever they are. *)
Theorem guardrails_off_ignores_guardrail_arguments client query
    knowledge_base_id model_arn metadata_filter use_guardrails guardrail_id
    guardrail_version :
  truthy use_guardrails = false ->
  retrieve_and_generate_with_conditional_guardrails client query
    knowledge_base_id model_arn metadata_filter use_guardrails guardrail_id
    guardrail_version =
  retrieve_and_generate_with_conditional_guardrails client query
    knowledge_base_id model_arn metadata_filter use_guardrails PNone PNone /\
  exists request,
    retrieve_and_generate_with_conditional_guardrails client query
      knowledge_base_id model_arn metadata_filter use_guardrails guardrail_id
      guardrail_version = (client request, [request]) /\
    get_path (generation_path ++ ["guardrailConfiguration"]) request = None.
Proof.
  unfold retrieve_and_generate_with_conditional_guardrails, build_kb_config.
  intros ->. destruct (truthy metadata_filter).
  - split; [reflexivity|]. eexists. split; reflexivity.
  - split; [reflexivity|]. eexists. split; reflexivity.
Qed.

Lemma guardrails_off_ignores_guardrail_arguments_witness :
  retrieve_and_generate_with_conditional_guardrails echo_client (PStr "q")
    (PStr "kb") (PStr "arn") year_filter (PBool false) (PStr "g1") (PStr "1") =
  retrieve_and_generate_with_conditional_guardrails echo_client (PStr "q")
    (PStr "kb") (PStr "arn") year_filter (PBool false) PNone PNone /\
  exists request,
    retrieve_and_generate_with_conditional_guardrails echo_client (PStr "q")
      (PStr "kb") (PStr "arn") year_filter (PBool false) (PStr "g1") (PStr "1")
    = (echo_client request, [request]) /\
    get_path (generation_path ++ ["guardrailConfiguration"]) request = None.
Proof.
  apply (guardrails_off_ignores_guardrail_arguments echo_client (PStr "q")
           (PStr "kb") (PStr "arn") year_filter (PBool false) (PStr "g1")
           (PStr "1")).
  reflexivity.
Defined.

(** X16: With [use_guardrails] true and a guardrail identifier, the request
    carries a [guardrailConfiguration] with the identifier, and with the
    version only when [guardrail_version] is truthy: a version that is
    [None] or empty is left out, not sent. *)
Theorem guardrail_configuration_sent client query knowledge_base_id model_arn
    metadata_filter use_guardrails guardrail_id guardrail_version :
  truthy use_guardrails = true -> truthy guardrail_id = true ->
  exists request,
    retrieve_and_generate_with_conditional_guardrails client query
      knowledge_base_id model_arn metadata_filter use_guardrails guardrail_id
      guardrail_version = (client request, [request]) /\
    get_path (generation_path ++ ["guardrailConfiguration"]) request =
      Some (PDict (if truthy guardrail_version
                   then {[ "guardrailId" := guardrail_id;
                           "guardrailVersion" := guardrail_version ]}
                   else {[ "guardrailId" := guardrail_id ]})).
Proof.
  unfold retrieve_and_generate_with_conditional_guardrails, build_kb_config.
  intros -> ->.
  destruct (truthy metadata_filter), (truthy guardrail_version);
    eexists; split; reflexivity.
Qed.

Lemma guardrail_configuration_sent_witness :
  exists request,
    retrieve_and_generate_with_conditional_guardrails echo_client (PStr "q")
      (PStr "kb") (PStr "arn") PNone (PBool true) (PStr "g1") (PStr "")
    = (echo_client request, [request]) /\
    get_path (generation_path ++ ["guardrailConfiguration"]) request =
      Some (PDict (if truthy (PStr "")
                   then {[ "guardrailId" := PStr "g1";
                           "guardrailVersion" := PStr "" ]}
                   else {[ "guardrailId" := PStr "g1" ]})).
Proof.
  apply (guardrail_configuration_sent echo_client (PStr "q") (PStr "kb")
           (PStr "arn") PNone (PBool true) (PStr "g1") (PStr "")); reflexivity.
Defined.

(** X17: The guardrails function extends the two plain ones: with
    [use_guardrails] false, its request without the
    [generationConfiguration] is the request of
    [retrieve_and_generate_with_filter] when the filter is truthy, and the
    request of [retrieve_and_generate_without_filter] when it is not. *)
Theorem conditional_extends_plain_requests client query knowledge_base_id
    model_arn metadata_filter use_guardrails guardrail_id guardrail_version :
  truthy use_guardrails = false ->
  exists request,
    retrieve_and_generate_with_conditional_guardrails client query
      knowledge_base_id model_arn metadata_filter use_guardrails guardrail_id
      guardrail_version = (client request, [request]) /\
    [del_path kb_config_path "generationConfiguration" request] =
      snd (if truthy metadata_filter
           then retrieve_and_generate_with_filter client query
                  knowledge_base_id model_arn metadata_filter
           else retrieve_and_generate_without_filter client query
                  knowledge_base_id model_arn).
Proof.
  unfold retrieve_and_generate_with_conditional_guardrails, build_kb_config.
  intros ->. destruct (truthy metadata_filter); eexists; split; reflexivity.
Qed.

Lemma conditional_extends_plain_requests_witness :
  exists request,
    retrieve_and_generate_with_conditional_guardrails echo_client (PStr "q")
      (PStr "kb") (PStr "arn") year_filter (PBool false) PNone PNone
    = (echo_client request, [request]) /\
    [del_path kb_config_path "generationConfiguration" request] =
      snd (if truthy year_filter
           then retrieve_and_generate_with_filter echo_client (PStr "q")
                  (PStr "kb") (PStr "arn") year_filter
           else retrieve_and_generate_without_filter echo_client (PStr "q")
                  (PStr "kb") (PStr "arn")).
Proof.
  apply (conditional_extends_plain_requests echo_client (PStr "q") (PStr "kb")
           (PStr "arn") year_filter (PBool false) PNone PNone).
  reflexivity.
Defined.

(** * Properties of the citation printer *)

Lemma print_chunk_well_formed repr num chunk :
  well_formed_chunk chunk ->
  exists text location metadata,
    get_path ["content"; "text"] chunk = Some text /\
    get_path ["location"] chunk = Some location /\
    get_path ["metadata"] chunk = Some metadata /\
    print_chunk repr num chunk =
      ([print_labelled repr ("Chunk " ++ str_int num ++ ": ") text;
        print_labelled repr ("Chunk " ++ str_int num ++ " Location: ") location;
        print_labelled repr ("Chunk " ++ str_int num ++ " Metadata: ") metadata],
       None).
Proof.
  intros (text & location & metadata & Ht & Hl & Hm).
  exists text, location, metadata. repeat split; try assumption.
  unfold print_chunk, getitem. simpl in Ht, Hl, Hm.
  destruct chunk as [| | | | |d]; try discriminate.
  destruct (d !! "content") as [content|]; [|discriminate]. simpl in Ht.
  destruct content as [| | | | |c]; try discriminate.
  destruct (c !! "text") as [text'|]; [|discriminate]. simpl in Ht.
  destruct (d !! "location") as [location'|]; [|discriminate].
  destruct (d !! "metadata") as [metadata'|]; [|discriminate].
  simpl in Hl, Hm. congruence.
Qed.

Lemma citations_loop_well_formed repr chunks : forall num,
  Forall well_formed_chunk chunks ->
  exists written,
    citations_loop repr num chunks = (written, None) /\
    length written = 3 * length chunks /\
    forall k chunk,
      chunks !! k = Some chunk ->
      exists text location metadata,
        get_path ["content"; "text"] chunk = Some text /\
        get_path ["location"] chunk = Some location /\
        get_path ["metadata"] chunk = Some metadata /\
        written !! (3 * k) =
          Some (print_labelled repr
                  ("Chunk " ++ str_int (num + Z.of_nat k) ++ ": ") text) /\
        written !! (3 * k + 1) =
          Some (print_labelled repr
                  ("Chunk " ++ str_int (num + Z.of_nat k) ++ " Location: ")
                  location) /\
        written !! (3 * k + 2) =
          Some (print_labelled repr
                  ("Chunk " ++ str_int (num + Z.of_nat k) ++ " Metadata: ")
                  metadata).
Proof.
  induction chunks as [|chunk chunks IH]; intros num Hall.
  - exists []. split; [reflexivity|]. split; [reflexivity|].
    intros k c Hk. discriminate.
  - apply Forall_cons in Hall as [Hwf Hall].
    destruct (print_chunk_well_formed repr num chunk Hwf)
      as (text & location & metadata & Ht & Hl & Hm & Hprint).
    destruct (IH (num + 1)%Z Hall) as (more & Hloop & Hlen & Hat).
    cbn [citations_loop]. rewrite Hprint, Hloop. eexists. split; [reflexivity|].
    split; [rewrite length_app; simpl length; lia|].
    intros [|k] c Hk.
    + injection Hk as <-. exists text, location, metadata.
      rewrite Z.add_0_r. repeat split; assumption || reflexivity.
    + simpl in Hk. destruct (Hat k c Hk) as (t & l & m & Ht' & Hl' & Hm' & H0 & H1 & H2).
      exists t, l, m. repeat split; try assumption.
      * replace (3 * S k) with (S (S (S (3 * k)))) by lia.
        replace (num + Z.of_nat (S k))%Z with (num + 1 + Z.of_nat k)%Z by lia.
        exact H0.
      * replace (3 * S k + 1) with (S (S (S (3 * k + 1)))) by lia.
        replace (num + Z.of_nat (S k))%Z with (num + 1 + Z.of_nat k)%Z by lia.
        exact H1.
      * replace (3 * S k + 2) with (S (S (S (3 * k + 2)))) by lia.
        replace (num + Z.of_nat (S k))%Z with (num + 1 + Z.of_nat k)%Z by lia.
        exact H2.
Qed.

(** X18: When every chunk has its text, location and metadata,
    [citations_rag_print] raises nothing and writes exactly three texts per
    chunk, in order: the chunk at position [k] (from 0) is printed under the
    number [k + 1], its text first, then its location, then its metadata. *)
Theorem citations_all_printed repr response_ret :
  Forall well_formed_chunk response_ret ->
  exists written,
    citations_rag_print repr response_ret = (written, None) /\
    length written = 3 * length response_ret /\
    forall k chunk,
      response_ret !! k = Some chunk ->
      exists text location metadata,
        get_path ["content"; "text"] chunk = Some text /\
        get_path ["location"] chunk = Some location /\
        get_path ["metadata"] chunk = Some metadata /\
        written !! (3 * k) =
          Some (print_labelled repr
                  ("Chunk " ++ str_int (1 + Z.of_nat k) ++ ": ") text) /\
        written !! (3 * k + 1) =
          Some (print_labelled repr
                  ("Chunk " ++ str_int (1 + Z.of_nat k) ++ " Location: ")
                  location) /\
        written !! (3 * k + 2) =
          Some (print_labelled repr
                  ("Chunk " ++ str_int (1 + Z.of_nat k) ++ " Metadata: ")
                  metadata).
Proof.
  intros Hall. apply citations_loop_well_formed. exact Hall.
Qed.

Lemma sample_chunk_well_formed text : well_formed_chunk (sample_chunk text).
Proof. eexists _, _, _. repeat split; reflexivity. Qed.

Lemma citations_all_printed_witness :
  exists written,
    citations_rag_print sample_repr [sample_chunk "a"; sample_chunk "b"]
      = (written, None) /\
    length written = 3 * length [sample_chunk "a"; sample_chunk "b"] /\
    forall k chunk,
      [sample_chunk "a"; sample_chunk "b"] !! k = Some chunk ->
      exists text location metadata,
        get_path ["content"; "text"] chunk = Some text /\
        get_path ["location"] chunk = Some location /\
        get_path ["metadata"] chunk = Some metadata /\
        written !! (3 * k) =
          Some (print_labelled sample_repr
                  ("Chunk " ++ str_int (1 + Z.of_nat k) ++ ": ") text) /\
        written !! (3 * k + 1) =
          Some (print_labelled sample_repr
                  ("Chunk " ++ str_int (1 + Z.of_nat k) ++ " Location: ")
                  location) /\
        written !! (3 * k + 2) =
          Some (print_labelled sample_repr
                  ("Chunk " ++ str_int (1 + Z.of_nat k) ++ " Metadata: ")
                  metadata).
Proof.
  apply (citations_all_printed sample_repr [sample_chunk "a"; sample_chunk "b"]).
  repeat constructor; apply sample_chunk_well_formed.
Defined.




(** * Properties of the ingestion cell *)

Lemma count_polls_app tr1 tr2 :
  count_polls (tr1 ++ tr2) = count_polls tr1 + count_polls tr2.
Proof.
  induction tr1 as [|[] tr1 IH]; simpl; rewrite ?IH; reflexivity.
Qed.

Lemma count_sleeps_app tr1 tr2 :
  count_sleeps (tr1 ++ tr2) = count_sleeps tr1 + count_sleeps tr2.
Proof.
  induction tr1 as [|[] tr1 IH]; simpl; rewrite ?IH; reflexivity.
Qed.

Lemma seconds_slept_app tr1 tr2 :
  seconds_slept (tr1 ++ tr2) = (seconds_slept tr1 + seconds_slept tr2)%Z.
Proof.
  induction tr1 as [|[] tr1 IH]; simpl; rewrite ?IH; lia.
Qed.

Lemma is_complete_other status :
  status <> "COMPLETE" -> is_complete (PStr status) = false.
Proof. intros Hne. apply String.eqb_neq. exact Hne. Qed.

Section Polling.

Variable bedrock_agent : BedrockAgent.
Variables kb ds_semantic_chunk kb_id ds_id : pyval.
Variable job_id : string.
Variable statuses : nat -> string.

Hypothesis kb_has_id : getitem "knowledgeBaseId" kb = inr kb_id.
Hypothesis ds_has_id : getitem "dataSourceId" ds_semantic_chunk = inr ds_id.

(** [n] rounds of the loop: [n] sleeps of 10 seconds and [n] polls. *)
Lemma poll_loop_rounds n : forall polls tr fuel,
  reports_from bedrock_agent job_id statuses polls n ->
  exists tr',
    count_polls tr' = n /\ count_sleeps tr' = n /\
    seconds_slept tr' = (10 * Z.of_nat n)%Z /\
    poll_loop bedrock_agent kb ds_semantic_chunk (n + fuel) polls
      (job_state job_id (statuses polls)) tr =
    poll_loop bedrock_agent kb ds_semantic_chunk fuel (polls + n)
      (job_state job_id (statuses (polls + n))) (tr ++ tr').
Proof.
  induction n as [|n IH]; intros polls tr fuel Hrep.
  - exists []. rewrite Nat.add_0_r, app_nil_r. auto.
  - destruct (Hrep 0) as [Hne Hget]; [lia|]. rewrite Nat.add_0_r in Hne, Hget.
    destruct (IH (S polls)
                (tr ++ [CPrint "running..."; CSleep 10]
                    ++ [CGet (PDict {[ "knowledgeBaseId" := kb_id;
                                       "dataSourceId" := ds_id;
                                       "ingestionJobId" := PStr job_id ]})])%list
                fuel) as (tr' & Hp & Hs & Hsec & Hloop).
    { intros k Hk. destruct (Hrep (S k)) as [Hne' Hget']; [lia|].
      replace (S polls + k) with (polls + S k) by lia. auto. }
    exists ([CPrint "running..."; CSleep 10;
             CGet (PDict {[ "knowledgeBaseId" := kb_id;
                            "dataSourceId" := ds_id;
                            "ingestionJobId" := PStr job_id ]})] ++ tr')%list.
    split; [simpl; lia|]. split; [simpl; lia|].
    split; [cbn [app seconds_slept]; lia|].
    change (S n + fuel) with (S (n + fuel)). cbn [poll_loop].
    change (getitem "status" (job_state job_id (statuses polls)))
      with (@inr exn pyval (PStr (statuses polls))).
    cbv iota. rewrite (is_complete_other _ Hne), kb_has_id, ds_has_id.
    change (getitem "ingestionJobId" (job_state job_id (statuses polls)))
      with (@inr exn pyval (PStr job_id)).
    cbv iota zeta. rewrite Hget.
    change (getitem "ingestionJob" (job_report job_id (statuses (S polls))))
      with (@inr exn pyval (job_state job_id (statuses (S polls)))).
    cbv iota. rewrite <- app_assoc in Hloop |- *.
    replace (polls + S n) with (S polls + n) by lia.
    rewrite Hloop, <- !app_assoc. reflexivity.
Qed.

End Polling.

Lemma poll_loop_complete bedrock_agent kb ds job_id status fuel polls tr :
  status = "COMPLETE" ->
  poll_loop bedrock_agent kb ds fuel polls (job_state job_id status) tr =
  Some (None, tr).
Proof. intros ->. destruct fuel; reflexivity. Qed.

Lemma reporting_service_reports job_id statuses n :
  (forall k, k < n -> statuses k <> "COMPLETE") ->
  reports_from (reporting_service job_id statuses) job_id statuses 0 n.
Proof. intros Hne k Hk. split; [apply Hne; exact Hk | reflexivity]. Qed.

(** X20: The cell waits for the job: with a service that reports a status at
    each poll, if the first status COMPLETE is the one after [n] polls, the
    cell finishes after exactly [n] polls and [n] sleeps, [10 * n] seconds
    in all, and its last output is the completion message. *)
Theorem polls_until_complete kb ds_semantic_chunk kb_id ds_id job_id statuses
    n fuel :
  getitem "knowledgeBaseId" kb = inr kb_id ->
  getitem "dataSourceId" ds_semantic_chunk = inr ds_id ->
  (forall k, k < n -> statuses k <> "COMPLETE") ->
  statuses n = "COMPLETE" ->
  n <= fuel ->
  exists tr,
    ingestion_cell (reporting_service job_id statuses) kb ds_semantic_chunk fuel
      = Some (Finished, tr) /\
    count_polls tr = n /\ count_sleeps tr = n /\
    seconds_slept tr = (10 * Z.of_nat n)%Z /\
    last tr = Some (CPrint "Job completed successfully
").
Proof.
  intros Hkb Hds Hne Hdone Hfuel.
  unfold ingestion_cell, try_ingestion. rewrite Hkb, Hds.
  cbn [start_ingestion_job reporting_service].
  change (getitem "ingestionJob" (job_report job_id (statuses 0)))
    with (@inr exn pyval (job_state job_id (statuses 0))).
  cbv iota zeta.
  replace fuel with (n + (fuel - n)) by lia.
  destruct (poll_loop_rounds (reporting_service job_id statuses) kb
              ds_semantic_chunk kb_id ds_id job_id statuses Hkb Hds n 0
              ([CStart (PDict {[ "knowledgeBaseId" := kb_id;
                                 "dataSourceId" := ds_id ]})]
               ++ [CPrint "Ingestion job started successfully
"])%list (fuel - n)
              (reporting_service_reports job_id statuses n Hne))
    as (tr' & Hp & Hs & Hsec & Hloop).
  rewrite Hloop. simpl (0 + n). rewrite poll_loop_complete by exact Hdone.
  eexists. split; [reflexivity|].
  rewrite !count_polls_app, !count_sleeps_app, !seconds_slept_app, Hp, Hs, Hsec.
  split; [simpl; lia|]. split; [simpl; lia|]. split; [simpl; lia|].
  apply last_snoc.
Qed.

Lemma third_time_lucky_first_complete :
  (forall k, k < 3 -> third_time_lucky k <> "COMPLETE") /\
  third_time_lucky 3 = "COMPLETE".
Proof.
  split; [|reflexivity]. intros k Hk. unfold third_time_lucky.
  destruct (Nat.ltb_spec k 3); [discriminate | lia].
Qed.

Lemma polls_until_complete_witness :
  exists tr,
    ingestion_cell (reporting_service "J1" third_time_lucky) sample_kb sample_ds 5
      = Some (Finished, tr) /\
    count_polls tr = 3 /\ count_sleeps tr = 3 /\
    seconds_slept tr = (10 * Z.of_nat 3)%Z /\
    last tr = Some (CPrint "Job completed successfully
").
Proof.
  apply (polls_until_complete sample_kb sample_ds (PStr "KB1") (PStr "DS1") "J1"
           third_time_lucky 3 5).
  - reflexivity.
  - reflexivity.
  - apply third_time_lucky_first_complete.
  - reflexivity.
  - lia.
Defined.

(** X21: The cell never gives up: as long as the service reports a status other
    than COMPLETE, FAILED included, the loop goes on. With a job that never
    completes the cell does not come to an end, whatever the number of
    iterations allowed. *)
Theorem unfinished_job_is_polled_forever kb ds_semantic_chunk kb_id ds_id
    job_id statuses :
  getitem "knowledgeBaseId" kb = inr kb_id ->
  getitem "dataSourceId" ds_semantic_chunk = inr ds_id ->
  (forall k, statuses k <> "COMPLETE") ->
  forall fuel,
    ingestion_cell (reporting_service job_id statuses) kb ds_semantic_chunk fuel
    = None.
Proof.
  intros Hkb Hds Hne fuel.
  unfold ingestion_cell, try_ingestion. rewrite Hkb, Hds.
  cbn [start_ingestion_job reporting_service].
  change (getitem "ingestionJob" (job_report job_id (statuses 0)))
    with (@inr exn pyval (job_state job_id (statuses 0))).
  cbv iota zeta.
  replace fuel with (fuel + 0) at 1 by lia.
  destruct (poll_loop_rounds (reporting_service job_id statuses) kb
              ds_semantic_chunk kb_id ds_id job_id statuses Hkb Hds fuel 0
              ([CStart (PDict {[ "knowledgeBaseId" := kb_id;
                                 "dataSourceId" := ds_id ]})]
               ++ [CPrint "Ingestion job started successfully
"])%list 0
              (reporting_service_reports job_id statuses fuel (fun k _ => Hne k)))
    as (tr' & _ & _ & _ & Hloop).
  rewrite Hloop. cbn [poll_loop].
  change (getitem "status" (job_state job_id (statuses (0 + fuel))))
    with (@inr exn pyval (PStr (statuses (0 + fuel)))).
  cbv iota. rewrite (is_complete_other _ (Hne _)). reflexivity.
Qed.

Lemma failed_for_good_never_complete k : failed_for_good k <> "COMPLETE".
Proof. unfold failed_for_good. destruct (k <? 1)%nat; discriminate. Qed.

Lemma unfinished_job_is_polled_forever_witness :
  ingestion_cell (reporting_service "J1" failed_for_good) sample_kb sample_ds 1000
  = None.
Proof.
  apply (unfinished_job_is_polled_forever sample_kb sample_ds (PStr "KB1")
           (PStr "DS1") "J1" failed_for_good).
  - reflexivity.
  - reflexivity.
  - apply failed_for_good_never_complete.
Defined.

Lemma failing_service_reports job_id statuses n e :
  (forall k, k < n -> statuses k <> "COMPLETE") ->
  reports_from (failing_service job_id statuses n e) job_id statuses 0 n.
Proof.
  intros Hne k Hk. split; [apply Hne; exact Hk|]. intros kwargs. simpl.
  destruct (Nat.ltb_spec k n); [reflexivity | lia].
Qed.

(** X22: Every failure is reported as a failure to start: when a poll raises an
    [Exception], after the job started and was polled [n] times without
    completing, the cell does not re-raise it; it finishes, having printed
    that the job started, and its last outputs are "Couldn't start job."
    and the description of the exception. *)
Theorem poll_failure_reported_as_start_failure kb ds_semantic_chunk kb_id ds_id
    job_id statuses n e fuel :
  getitem "knowledgeBaseId" kb = inr kb_id ->
  getitem "dataSourceId" ds_semantic_chunk = inr ds_id ->
  (forall k, k <= n -> statuses k <> "COMPLETE") ->
  is_Exception e = true ->
  n < fuel ->
  exists tr,
    ingestion_cell (failing_service job_id statuses n e) kb ds_semantic_chunk fuel
      = Some (Finished,
              (tr ++ [CPrint "Couldn't start job.
"; CPrint (exn_str e)])%list) /\
    CPrint "Ingestion job started successfully
" ∈ tr /\
    count_polls tr = S n /\ count_sleeps tr = S n.
Proof.
  intros Hkb Hds Hne Hexc Hfuel.
  unfold ingestion_cell, try_ingestion. rewrite Hkb, Hds.
  cbn [start_ingestion_job failing_service].
  change (getitem "ingestionJob" (job_report job_id (statuses 0)))
    with (@inr exn pyval (job_state job_id (statuses 0))).
  cbv iota zeta.
  replace fuel with (n + S (fuel - S n)) by lia.
  destruct (poll_loop_rounds (failing_service job_id statuses n e) kb
              ds_semantic_chunk kb_id ds_id job_id statuses Hkb Hds n 0
              ([CStart (PDict {[ "knowledgeBaseId" := kb_id;
                                 "dataSourceId" := ds_id ]})]
               ++ [CPrint "Ingestion job started successfully
"])%list (S (fuel - S n))
              (failing_service_reports job_id statuses n e
                 (fun k Hk => Hne k (Nat.lt_le_incl _ _ Hk))))
    as (tr' & Hp & Hs & _ & Hloop).
  rewrite Hloop. simpl (0 + n). cbn [poll_loop].
  change (getitem "status" (job_state job_id (statuses n)))
    with (@inr exn pyval (PStr (statuses n))).
  cbv iota. rewrite (is_complete_other _ (Hne n (le_n n))), Hkb, Hds.
  change (getitem "ingestionJobId" (job_state job_id (statuses n)))
    with (@inr exn pyval (PStr job_id)).
  cbv iota zeta. cbn [get_ingestion_job failing_service].
  rewrite Nat.ltb_irrefl, Hexc.
  eexists. split; [reflexivity|].
  rewrite !count_polls_app, !count_sleeps_app, Hp, Hs.
  split; [|split; simpl; lia].
  rewrite !elem_of_app, !elem_of_cons. tauto.
Qed.

Lemma poll_failure_reported_as_start_failure_witness :
  exists tr,
    ingestion_cell (failing_service "J1" failed_for_good 1 throttling_fault)
      sample_kb sample_ds 4
      = Some (Finished,
              (tr ++ [CPrint "Couldn't start job.
"; CPrint (exn_str throttling_fault)])%list) /\
    CPrint "Ingestion job started successfully
" ∈ tr /\
    count_polls tr = 2 /\ count_sleeps tr = 2.
Proof.
  apply (poll_failure_reported_as_start_failure sample_kb sample_ds (PStr "KB1")
           (PStr "DS1") "J1" failed_for_good 1 throttling_fault 4).
  - reflexivity.
  - reflexivity.
  - intros k _. apply failed_for_good_never_complete.
  - reflexivity.
  - lia.
Defined.

(** * The notebook's calls and the failure messages *)

(** X23: A call with the default arguments, as the notebook's examples make it,
    comes to an end after at most 6 calls of the agent and at most 300
    seconds of sleep, whatever the agent does. *)
Theorem default_call_bounds rng agent question :
  exists r w,
    invoke_agent_default rng agent question = Some (r, w) /\
    count_invokes (trace w) <= 6 /\
    length (sleeps (trace w)) <= 5 /\
    (total_sleep (trace w) <= 300)%Q.
Proof.
  unfold invoke_agent_default.
  destruct (invoke_agent_spec rng agent question 5 5 60) as (r & w & Hrun & Hspec).
  exists r, w. split; [exact Hrun|].
  pose proof (run_sleeps_bounds _ _ _ _ _ _ _ _ Hspec) as Hbounds.
  pose proof (run_sleeps _ _ _ _ _ _ _ _ Hspec) as Hsleeps.
  assert (Hcalls : calls w <= 6).
  { destruct Hspec as [_ _ _ Hres]. destruct (calls w); [lia|].
    destruct Hres as [Hj _]. lia. }
  rewrite (run_count_invokes _ _ _ _ _ _ _ _ Hspec).
  split; [exact Hcalls|].
  assert (Hlen : length (sleeps (trace w)) <= 5).
  { rewrite Hsleeps, length_map, length_seq. lia. }
  split; [exact Hlen|].
  assert (Hsum : (total_sleep (trace w)
                  <= inject_Z (Z.of_nat (length (sleeps (trace w)))) * 60)%Q).
  { apply sum_le_length_times.
    eapply Forall_impl; [exact Hbounds|]. intros d [_ Hd]. exact Hd. }
  assert (Hn : (inject_Z (Z.of_nat (length (sleeps (trace w)))) <= 5)%Q).
  { change 5%Q with (inject_Z 5). rewrite <- Zle_Qle. lia. }
  nra.
Qed.

(** X24: Both terminal messages begin with the same words, whatever
    [max_retries] and the last exception are: a caller can tell a failure
    message by the prefix "Unable to get a response from the agent". *)
Theorem failure_messages_share_prefix max_retries last_exception :
  String.prefix "Unable to get a response from the agent"
    (error_message max_retries last_exception) = true.
Proof.
  unfold error_message.
  destruct (is_throttling_str (py_str last_exception)); [reflexivity|].
  apply prefix_occurs.
  exists (" after " ++ str_int max_retries ++ " attempts. Error: "
          ++ py_str last_exception).
  reflexivity.
Qed.
